(** * OnlineEmpDemo: the chat relay (server.js) and the chat widget (public/app.js)

    A shallow embedding of the Express handlers of [server.js] and of the
    browser widget of [public/app.js], with the properties of the chat
    request/response cycle proved over it.

    - [JS]      : JavaScript strings (UTF-16 code units), truthiness, [trim],
                  and Node's [Buffer#toString('base64')].
    - [Server]  : the [prospects] table, the handler monad (database state,
                  log of outbound calls, exceptions) and the four routes.
    - [Widget]  : the widget's closure variables as a state record and
                  [sendMessage], [addMessageToUI], [playAudio] over it. *)

From Stdlib Require Import List String Ascii Arith NArith Lia Bool.
From Stdlib.Strings Require Import Byte.
Import ListNotations.

(* ===================================================================== *)
(** ** JavaScript values used by the program *)
(* ===================================================================== *)

Module JS.

(** A JavaScript string is a sequence of UTF-16 code units. *)
Definition jsstring := list N.

(** String literals of the source (all of them ASCII). *)
Definition js (s : string) : jsstring :=
  map N_of_ascii (list_ascii_of_string s).

Definition jsstring_eqb (a b : jsstring) : bool :=
  if list_eq_dec N.eq_dec a b then true else false.

(** [ToBoolean] on a value that is [undefined] or a string:
    [undefined] and [''] are falsy, every other string is truthy. *)
Definition truthy (v : option jsstring) : bool :=
  match v with
  | None => false
  | Some [] => false
  | Some (_ :: _) => true
  end.

(** ECMAScript [WhiteSpace] and [LineTerminator] code points, the ones
    [String.prototype.trim] strips.  All of them lie in the BMP, so the
    test is on single code units. *)
Definition is_white_space (c : N) : bool :=
  (  (c =? 0x09) || (c =? 0x0A) || (c =? 0x0B) || (c =? 0x0C) || (c =? 0x0D)
  || (c =? 0x20) || (c =? 0xA0) || (c =? 0x1680)
  || ((0x2000 <=? c) && (c <=? 0x200A))
  || (c =? 0x2028) || (c =? 0x2029) || (c =? 0x202F) || (c =? 0x205F)
  || (c =? 0x3000) || (c =? 0xFEFF))%N.

Fixpoint trimStart (s : jsstring) : jsstring :=
  match s with
  | [] => []
  | c :: r => if is_white_space c then trimStart r else s
  end.

Definition trimEnd (s : jsstring) : jsstring := rev (trimStart (rev s)).

(** [String.prototype.trim]. *)
Definition trim (s : jsstring) : jsstring := trimEnd (trimStart s).

(** *** [Buffer.from(bytes).toString('base64')] (RFC 4648, with padding) *)

Definition base64_alphabet : string :=
  "ABCDEFGHIJKLMNOPQRSTUVWXYZabcdefghijklmnopqrstuvwxyz0123456789+/".

(** The code unit of the [i]-th letter of the alphabet, [i < 64]. *)
Definition base64_digit (i : N) : N :=
  match String.get (N.to_nat i) base64_alphabet with
  | Some a => N_of_ascii a
  | None => 0
  end.

Definition pad : N := 61. (* '=' *)

Fixpoint base64 (bs : list byte) : jsstring :=
  match bs with
  | [] => []
  | [a] =>
      let x := Byte.to_N a in
      [ base64_digit (N.shiftr x 2);
        base64_digit (N.shiftl (N.land x 3) 4);
        pad; pad ]
  | [a; b] =>
      let x := Byte.to_N a in
      let y := Byte.to_N b in
      [ base64_digit (N.shiftr x 2);
        base64_digit (N.lor (N.shiftl (N.land x 3) 4) (N.shiftr y 4));
        base64_digit (N.shiftl (N.land y 15) 2);
        pad ]
  | a :: b :: c :: rest =>
      let x := Byte.to_N a in
      let y := Byte.to_N b in
      let z := Byte.to_N c in
      base64_digit (N.shiftr x 2)
      :: base64_digit (N.lor (N.shiftl (N.land x 3) 4) (N.shiftr y 4))
      :: base64_digit (N.lor (N.shiftl (N.land y 15) 2) (N.shiftr z 6))
      :: base64_digit (N.land z 63)
      :: base64 rest
  end.

(** The bytes of an ASCII literal, for test vectors. *)
Definition bytes (s : string) : list byte := list_byte_of_string s.

End JS.

Import JS.

(* ===================================================================== *)
(** ** The JSON exchanged on [POST /chat] *)
(* ===================================================================== *)

Module Wire.

(** One turn of the transcript: [{ role, content }]. *)
Record message := mkMessage {
  role : jsstring;
  content : jsstring
}.

(** The request body [{ userMessage, chatHistory, prospectId }].
    [chatHistory] and [prospectId] may be absent ([undefined], which
    [JSON.stringify] drops); [userMessage] is a string, as the widget
    sends it. *)
Record ChatBody := mkChatBody {
  userMessage : jsstring;
  chatHistory : option (list message);
  prospectId : option jsstring
}.

End Wire.

(* ===================================================================== *)
(** ** server.js *)
(* ===================================================================== *)

Module Server.

Import Wire.

(** *** The [prospects] table (lines 156-163)

    [id SERIAL PRIMARY KEY, name TEXT NOT NULL, system_prompt TEXT NOT NULL,
     unique_id TEXT NOT NULL UNIQUE]. *)

Record Row := mkRow {
  id : N;
  name : jsstring;
  system_prompt : jsstring;
  unique_id : jsstring
}.

(** The rows in insertion order, and the next value of the sequence behind
    the SERIAL column. *)
Record Table := mkTable {
  rows : list Row;
  id_seq : N
}.

(** What the connection pool talks to: a server that may be unreachable and
    a [prospects] table that exists only once [initializeDatabase] has run. *)
Record Database := mkDatabase {
  online : bool;
  prospects : option Table
}.

Definition empty_table : Table := mkTable [] 1.

(** *** Exceptions and the two external services *)

(** Everything that can land in a handler's [catch]. *)
Inductive exn :=
| DbError      (* pool.query rejected *)
| TypeError    (* spread of a non-iterable, property of undefined *)
| AxiosError.  (* network failure or non-2xx status *)

Inductive outcome (A : Type) :=
| Ok (a : A)
| Throw (e : exn).
Arguments Ok {A} a.
Arguments Throw {A} e.

(** The outside world of one request: what OpenRouter answers to a message
    list (the [content] of each returned choice) and what ElevenLabs answers
    to a text (the bytes of the audio stream). *)
Record Services := mkServices {
  openrouter : list message -> outcome (list jsstring);
  elevenlabs : jsstring -> outcome (list byte)
}.

(** Calls that leave the process, in the order they are attempted. *)
Inductive event :=
| SelectByUniqueId (param : option jsstring)    (* lines 49 and 103 *)
| SelectAll                                     (* line 67 *)
| InsertProspect (n p : option jsstring) (u : jsstring)  (* line 82 *)
| PostOpenRouter (messages : list message)      (* line 110 *)
| PostElevenLabs (text : jsstring).             (* line 125 *)

Definition is_external (e : event) : bool :=
  match e with
  | PostOpenRouter _ | PostElevenLabs _ => true
  | _ => false
  end.

Definition is_store (e : event) : bool :=
  match e with
  | SelectByUniqueId _ | SelectAll | InsertProspect _ _ _ => true
  | _ => false
  end.

(** *** The handler monad: database state, call log, exceptions *)

Record World := mkWorld {
  db : Database;
  trace : list event
}.

Definition M (A : Type) : Type := World -> outcome A * World.

Definition ret {A} (a : A) : M A := fun w => (Ok a, w).

Definition bind {A B} (m : M A) (k : A -> M B) : M B :=
  fun w =>
    match m w with
    | (Ok a, w') => k a w'
    | (Throw e, w') => (Throw e, w')
    end.

Definition throw {A} (e : exn) : M A := fun w => (Throw e, w).

(** [try { body } catch (err) { handler }]. *)
Definition try_catch {A} (body : M A) (handler : exn -> M A) : M A :=
  fun w =>
    match body w with
    | (Ok a, w') => (Ok a, w')
    | (Throw e, w') => handler e w'
    end.

Definition emit (e : event) : M unit :=
  fun w => (Ok tt, mkWorld (db w) (trace w ++ [e])).

Definition lift {A} (o : outcome A) : M A := fun w => (o, w).

Definition get_db : M Database := fun w => (Ok (db w), w).

Definition put_db (d : Database) : M unit :=
  fun w => (Ok tt, mkWorld d (trace w)).

Declare Scope handler_scope.
Delimit Scope handler_scope with handler.
Notation "x <- c ;; k" := (bind c (fun x => k))
  (at level 61, c at next level, right associativity) : handler_scope.
Notation "c ;;; k" := (bind c (fun _ => k))
  (at level 61, right associativity) : handler_scope.
Local Open Scope handler_scope.

(** *** Queries *)

(** The table behind a query, or the rejection of [pool.query]. *)
Definition with_table : M Table :=
  d <- get_db ;;
  if online d then
    match prospects d with
    | Some t => ret t
    | None => throw DbError
    end
  else throw DbError.

(** PostgreSQL text cannot hold U+0000: a statement with such a string
    among its parameters is refused when the parameters are bound, and
    [pool.query] rejects. *)
Definition storable (s : jsstring) : bool := negb (existsb (N.eqb 0) s).

(** The parameter can be bound: NULL, or text without U+0000. *)
Definition bindable (p : option jsstring) : bool :=
  match p with
  | Some s => storable s
  | None => true
  end.

(** The last value the int4 sequence behind a SERIAL column hands out;
    past it, [nextval] fails. *)
Definition int4_max : N := 2147483647.

(** What the driver's UTF-8 encoder makes of a string (and what comes back
    when the column is read): an unpaired surrogate is sent as U+FFFD,
    everything else as it is.  This is [String.prototype.toWellFormed]. *)
Definition is_high_surrogate (c : N) : bool := ((0xD800 <=? c) && (c <=? 0xDBFF))%N.

Definition is_low_surrogate (c : N) : bool := ((0xDC00 <=? c) && (c <=? 0xDFFF))%N.

Fixpoint toWellFormed (s : jsstring) : jsstring :=
  match s with
  | [] => []
  | c :: r =>
      if is_high_surrogate c then
        match r with
        | d :: r' =>
            if is_low_surrogate d then c :: d :: toWellFormed r'
            else 0xFFFD%N :: toWellFormed r
        | [] => [0xFFFD%N]
        end
      else if is_low_surrogate c then 0xFFFD%N :: toWellFormed r
      else c :: toWellFormed r
  end.

(** [WHERE unique_id = $1].  An [undefined] parameter is sent as NULL, and
    [unique_id = NULL] holds of no row; nor does any stored text equal a
    string holding U+0000.  The stored identifiers are the ASCII strings of
    [uuidv4()], which the encoder leaves as they are. *)
Definition where_unique_id (p : option jsstring) (t : Table) : list Row :=
  match p with
  | Some s =>
      if storable s
      then filter (fun r => jsstring_eqb (unique_id r) s) (rows t)
      else []
  | None => []
  end.

(** [SELECT ... FROM prospects WHERE unique_id = $1].  The query is rejected
    when the store cannot answer and when the parameter cannot be bound. *)
Definition select_by_unique_id (p : option jsstring) : M (list Row) :=
  emit (SelectByUniqueId p) ;;;
  t <- with_table ;;
  if bindable p then ret (where_unique_id p t) else throw DbError.

(** [ORDER BY id DESC]: insertion into a list already in descending order. *)
Fixpoint insert_desc (r : Row) (l : list Row) : list Row :=
  match l with
  | [] => [r]
  | x :: l' => if (id x <=? id r)%N then r :: l else x :: insert_desc r l'
  end.

Fixpoint order_by_id_desc (l : list Row) : list Row :=
  match l with
  | [] => []
  | r :: l' => insert_desc r (order_by_id_desc l')
  end.

(** [SELECT * FROM prospects ORDER BY id DESC]. *)
Definition select_all_desc : M (list Row) :=
  emit SelectAll ;;;
  t <- with_table ;;
  ret (order_by_id_desc (rows t)).

(** [INSERT INTO prospects (name, system_prompt, unique_id) VALUES ($1,$2,$3)].
    An [undefined] parameter is sent as NULL.  The statement is refused, in
    this order: when a parameter holds U+0000 (nothing is drawn from the
    sequence); when the sequence is exhausted; when a NOT NULL column gets
    NULL or the identifier is stored already (the sequence value is drawn
    before these constraints are checked, so such a refusal leaves a gap).
    The name and the prompt are kept as the encoder sends them; [u] comes
    from [uuidv4()] and is ASCII. *)
Definition insert_prospect (n p : option jsstring) (u : jsstring) : M unit :=
  emit (InsertProspect n p u) ;;;
  t <- with_table ;;
  d <- get_db ;;
  if negb (bindable n && bindable p && storable u) then throw DbError
  else
    let i := id_seq t in
    if negb (i <=? int4_max)%N then throw DbError
    else
      match n, p with
      | Some n', Some p' =>
          if existsb (fun r => jsstring_eqb (unique_id r) u) (rows t)
          then put_db (mkDatabase (online d)
                         (Some (mkTable (rows t) (N.succ i)))) ;;;
               throw DbError
          else put_db (mkDatabase (online d)
                         (Some (mkTable
                                  (rows t
                                   ++ [mkRow i (toWellFormed n')
                                         (toWellFormed p') u])
                                  (N.succ i))))
      | _, _ =>
          put_db (mkDatabase (online d)
                    (Some (mkTable (rows t) (N.succ i)))) ;;;
          throw DbError
      end.

(** [initializeDatabase] (lines 154-170): [CREATE TABLE IF NOT EXISTS], with
    the rejection swallowed by its own [catch]. *)
Definition initializeDatabase : M unit :=
  try_catch
    (d <- get_db ;;
     if online d then
       match prospects d with
       | Some _ => ret tt
       | None => put_db (mkDatabase (online d) (Some empty_table))
       end
     else throw DbError)
    (fun _ => ret tt).

(** *** Responses *)

Inductive body :=
| Send (text : jsstring)                                 (* res.send *)
| JsonError (error : jsstring)                           (* res.json({error}) *)
| JsonReply (textResponse audioData : jsstring)          (* res.json({textResponse, audioData}) *)
| RenderDemo (prospectName prospectId : jsstring)        (* res.render('demo', ...) *)
| RenderAdmin (prospects : list Row) (baseUrl : jsstring) (* res.render('admin_dashboard', ...) *)
| Redirect (location : jsstring).                        (* res.redirect *)

Record Response := mkResponse {
  status : N;
  payload : body
}.

(** *** [GET /] (lines 41-62) *)

Definition landing (prospectId : option jsstring) : M Response :=
  if negb (truthy prospectId) then
    ret (mkResponse 404
           (Send (js "Prospect not found. Please use a valid demo link.")))
  else
    try_catch
      (result <- select_by_unique_id prospectId ;;
       match result with
       | [] => ret (mkResponse 404 (Send (js "Prospect not found.")))
       | prospect :: _ =>
           ret (mkResponse 200 (RenderDemo (name prospect) (unique_id prospect)))
       end)
      (fun _ => ret (mkResponse 500 (Send (js "Server error")))).

(** *** The admin routes (lines 28-38 and 65-91) *)

Record Env := mkEnv {
  ADMIN_USERNAME : option jsstring;
  ADMIN_PASSWORD : option jsstring
}.

Record Credentials := mkCredentials {
  cred_name : jsstring;
  cred_pass : jsstring
}.

(** [a !== b] where [b] is an environment variable, possibly unset. *)
Definition strict_neq (a : jsstring) (b : option jsstring) : bool :=
  match b with
  | Some s => negb (jsstring_eqb a s)
  | None => true
  end.

Definition checkAuth (env : Env) (credentials : option Credentials)
    (next : M Response) : M Response :=
  match credentials with
  | None => ret (mkResponse 401 (Send (js "Access denied")))
  | Some c =>
      if strict_neq (cred_name c) (ADMIN_USERNAME env)
         || strict_neq (cred_pass c) (ADMIN_PASSWORD env)
      then ret (mkResponse 401 (Send (js "Access denied")))
      else next
  end.

(** [GET /admin]. *)
Definition admin (env : Env) (credentials : option Credentials)
    (baseUrl : jsstring) : M Response :=
  checkAuth env credentials
    (try_catch
       (result <- select_all_desc ;;
        ret (mkResponse 200 (RenderAdmin result baseUrl)))
       (fun _ => ret (mkResponse 500 (Send (js "Server error"))))).

(** [POST /admin/create]; [uniqueId] is the value [uuidv4()] returned. *)
Definition admin_create (env : Env) (credentials : option Credentials)
    (prospectName systemPrompt : option jsstring) (uniqueId : jsstring)
    : M Response :=
  checkAuth env credentials
    (try_catch
       (insert_prospect prospectName systemPrompt uniqueId ;;;
        ret (mkResponse 302 (Redirect (js "/admin"))))
       (fun _ => ret (mkResponse 500 (Send (js "Error creating prospect"))))).

(** *** [POST /chat] (lines 94-151) *)

(** [...v] inside an array literal: [undefined] is not iterable. *)
Definition spread {A} (v : option (list A)) : outcome (list A) :=
  match v with
  | Some l => Ok l
  | None => Throw TypeError
  end.

(** The [messages] array literal of lines 114-118. *)
Definition build_messages (SYSTEM_PROMPT : jsstring)
    (chatHistory : option (list message)) (userMessage : jsstring)
    : outcome (list message) :=
  match spread chatHistory with
  | Ok history =>
      Ok (mkMessage (js "system") SYSTEM_PROMPT
            :: history ++ [mkMessage (js "user") userMessage])
  | Throw e => Throw e
  end.

(** [llmResponse.data.choices[0].message.content]. *)
Definition first_choice (choices : list jsstring) : outcome jsstring :=
  match choices with
  | c :: _ => Ok c
  | [] => Throw TypeError
  end.

Definition post_openrouter (svc : Services) (messages : list message)
    : M (list jsstring) :=
  emit (PostOpenRouter messages) ;;;
  lift (openrouter svc messages).

Definition post_elevenlabs (svc : Services) (text : jsstring) : M (list byte) :=
  emit (PostElevenLabs text) ;;;
  lift (elevenlabs svc text).

Definition data_uri (audioData : jsstring) : jsstring :=
  js "data:audio/mpeg;base64," ++ audioData.

Definition chat (svc : Services) (req : ChatBody) : M Response :=
  if negb (truthy (prospectId req)) then
    ret (mkResponse 400 (JsonError (js "Missing Prospect ID")))
  else
    try_catch
      (brainResult <- select_by_unique_id (prospectId req) ;;
       match brainResult with
       | [] => ret (mkResponse 404 (JsonError (js "Prospect brain not found")))
       | brain :: _ =>
           let SYSTEM_PROMPT := system_prompt brain in
           messages <- lift (build_messages SYSTEM_PROMPT (chatHistory req)
                               (userMessage req)) ;;
           choices <- post_openrouter svc messages ;;
           textResponse <- lift (first_choice choices) ;;
           ttsResponse <- post_elevenlabs svc textResponse ;;
           let audioData := base64 ttsResponse in
           ret (mkResponse 200 (JsonReply textResponse (data_uri audioData)))
       end)
      (fun _ => ret (mkResponse 500 (JsonError (js "Failed to get AI response")))).

(** Running a handler against a database, with an empty call log. *)
Definition run {A} (m : M A) (d : Database) : outcome A * World :=
  m (mkWorld d []).

Definition response_of (r : outcome Response * World) : option Response :=
  match fst r with
  | Ok x => Some x
  | Throw _ => None
  end.

Definition calls_of {A} (r : outcome A * World) : list event := trace (snd r).

(** The calls to OpenRouter and ElevenLabs among logged calls, and the
    queries sent to the store. *)
Definition external_calls (tr : list event) : list event := filter is_external tr.

Definition store_calls (tr : list event) : list event := filter is_store tr.

(** The [messages] of each text-generation call, in order. *)
Fixpoint llm_payloads (tr : list event) : list (list message) :=
  match tr with
  | [] => []
  | PostOpenRouter m :: tr' => m :: llm_payloads tr'
  | _ :: tr' => llm_payloads tr'
  end.

(** *** A session of the admin: the form posts of [/admin/create] in order *)

Record CreateForm := mkCreateForm {
  prospectName : option jsstring;
  systemPrompt : option jsstring;
  uniqueId : jsstring              (* what uuidv4() returned for this post *)
}.

Fixpoint create_all (env : Env) (credentials : option Credentials)
    (forms : list CreateForm) : M (list Response) :=
  match forms with
  | [] => ret []
  | f :: forms' =>
      r <- admin_create env credentials
             (prospectName f) (systemPrompt f) (uniqueId f) ;;
      rs <- create_all env credentials forms' ;;
      ret (r :: rs)
  end.

(** The names of the posts that were answered by the redirect, in order,
    as the store keeps them. *)
Fixpoint accepted_names (forms : list CreateForm) (rs : list Response)
    : list (option jsstring) :=
  match forms, rs with
  | f :: forms', r :: rs' =>
      if (status r =? 302)%N
      then option_map toWellFormed (prospectName f) :: accepted_names forms' rs'
      else accepted_names forms' rs'
  | _, _ => []
  end.

(** A store that answers queries: the server is reachable and the table
    exists. *)
Definition serving (d : Database) (t : Table) : Prop :=
  online d = true /\ prospects d = Some t.

(** The row identifiers grow strictly along [l], from [lo] and below [hi]. *)
Fixpoint ascending (lo : N) (l : list Row) (hi : N) : Prop :=
  match l with
  | [] => (lo <= hi)%N
  | r :: l' => (lo <= id r)%N /\ ascending (N.succ (id r)) l' hi
  end.

(** What SERIAL maintains: rows in insertion order carry growing
    identifiers, all below the next value of the sequence. *)
Definition well_sequenced (t : Table) : Prop :=
  ascending 0 (rows t) (id_seq t).

(** The request carries the configured admin credentials. *)
Definition authorized (env : Env) (c : Credentials) : Prop :=
  ADMIN_USERNAME env = Some (cred_name c)
  /\ ADMIN_PASSWORD env = Some (cred_pass c).

(** The admin creates [forms] one after the other on a server whose table
    was just initialised, then opens the dashboard. *)
Definition admin_session (env : Env) (credentials : option Credentials)
    (baseUrl : jsstring) (forms : list CreateForm)
    : M (list Response * Response) :=
  bind initializeDatabase (fun _ =>
  bind (create_all env credentials forms) (fun rs =>
  bind (admin env credentials baseUrl) (fun page =>
  ret (rs, page)))).

(** A reachable server on which no table has been created yet. *)
Definition fresh : Database := mkDatabase true None.

(** The names on the dashboard at the end of a session, top to bottom. *)
Definition dashboard_names (r : outcome (list Response * Response))
    : option (list jsstring) :=
  match r with
  | Ok (_, mkResponse _ (RenderAdmin l _)) => Some (map name l)
  | _ => None
  end.

End Server.

(* ===================================================================== *)
(** ** public/app.js *)
(* ===================================================================== *)

Module Widget.

(** A child of [#chat-messages], as [addMessageToUI] builds it. *)
Record Element := mkElement {
  node : nat;                      (* identity of the DOM node *)
  textContent : jsstring;
  classList : list jsstring;
  play_button : option jsstring    (* the audioData its onclick plays *)
}.

(** An [Audio] object. *)
Record Audio := mkAudio {
  src : jsstring;
  playing : bool
}.

(** The closure variables of the DOMContentLoaded callback and the part of
    the page they reach.  [audios] holds every [Audio] ever constructed,
    [currentAudio] an index into it; [pending] are the [loadingEl] of the
    [sendMessage] activations waiting on their [fetch]; [outbox] the bodies
    handed to [fetch('/chat')]. *)
Record State := mkState {
  prospectId : option jsstring;    (* line 13 *)
  chatHistory : list Wire.message; (* line 14 *)
  currentAudio : option nat;       (* line 15 *)
  chatInput_value : jsstring;
  chatMessages : list Element;
  next_node : nat;
  audios : list Audio;
  pending : list nat;
  outbox : list Wire.ChatBody
}.

Definition init (pid : option jsstring) : State :=
  mkState pid [] None [] [] 0 [] [] [].

(** What the awaited [fetch] and [response.json()] deliver. *)
Inductive fetch_result :=
| Rejected                          (* the fetch promise rejects *)
| Resolved (ok : bool)              (* response.ok *)
           (json : option (jsstring * jsstring)).
                                    (* { textResponse, audioData } as the relay
                                       sends them; None when response.json()
                                       rejects (the body is not JSON) or yields
                                       null, so that line 51 throws *)

(** *** [addMessageToUI] (lines 66-87) *)

Definition addMessageToUI (message sender : jsstring)
    (audioData : option jsstring) (isLoading : bool) (s : State)
    : nat * State :=
  let messageEl := next_node s in
  let classes :=
    [js "message"; sender ++ js "-message"]
    ++ (if isLoading then [js "loading"] else []) in
  let button :=
    if jsstring_eqb sender (js "ai") && truthy audioData
    then audioData else None in
  (messageEl,
   mkState (prospectId s) (chatHistory s) (currentAudio s)
     (chatInput_value s)
     (chatMessages s ++ [mkElement messageEl message classes button])
     (S messageEl) (audios s) (pending s) (outbox s)).

(** *** [playAudio] (lines 89-93), statement by statement *)

Fixpoint update {A} (f : A -> A) (n : nat) (l : list A) : list A :=
  match l, n with
  | [], _ => []
  | x :: r, O => f x :: r
  | x :: r, S n' => x :: update f n' r
  end.

Definition set_audios (a : list Audio) (c : option nat) (s : State) : State :=
  mkState (prospectId s) (chatHistory s) c (chatInput_value s)
    (chatMessages s) (next_node s) a (pending s) (outbox s).

(** [if (currentAudio) currentAudio.pause();] *)
Definition pause_current (s : State) : State :=
  match currentAudio s with
  | Some h =>
      set_audios (update (fun a => mkAudio (src a) false) h (audios s))
        (currentAudio s) s
  | None => s
  end.

(** [currentAudio = new Audio(audioData);] *)
Definition new_Audio (audioData : jsstring) (s : State) : State :=
  set_audios (audios s ++ [mkAudio audioData false])
    (Some (List.length (audios s))) s.

(** [currentAudio.play();] *)
Definition play_current (s : State) : State :=
  match currentAudio s with
  | Some h =>
      set_audios (update (fun a => mkAudio (src a) true) h (audios s))
        (currentAudio s) s
  | None => s
  end.

Definition playAudio (audioData : jsstring) (s : State) : State :=
  play_current (new_Audio audioData (pause_current s)).

(** *** [sendMessage] (lines 27-64) *)

Definition set_input (v : jsstring) (s : State) : State :=
  mkState (prospectId s) (chatHistory s) (currentAudio s) v
    (chatMessages s) (next_node s) (audios s) (pending s) (outbox s).

(** [chatHistory.push(m)]. *)
Definition push (m : Wire.message) (s : State) : State :=
  mkState (prospectId s) (chatHistory s ++ [m]) (currentAudio s)
    (chatInput_value s) (chatMessages s) (next_node s) (audios s)
    (pending s) (outbox s).

(** [fetch('/chat', { body: JSON.stringify(b) })] is issued; the activation
    suspends with [loadingEl] in hand. *)
Definition fetch_chat (b : Wire.ChatBody) (loadingEl : nat) (s : State) : State :=
  mkState (prospectId s) (chatHistory s) (currentAudio s)
    (chatInput_value s) (chatMessages s) (next_node s) (audios s)
    (pending s ++ [loadingEl]) (outbox s ++ [b]).

Definition is_child (n : nat) (s : State) : bool :=
  existsb (fun e => Nat.eqb (node e) n) (chatMessages s).

(** [chatMessages.removeChild(el)] for an [el] that is a child. *)
Definition removeChild (n : nat) (s : State) : State :=
  mkState (prospectId s) (chatHistory s) (currentAudio s)
    (chatInput_value s)
    (filter (fun e => negb (Nat.eqb (node e) n)) (chatMessages s))
    (next_node s) (audios s) (pending s) (outbox s).

Definition settled (loadingEl : nat) (s : State) : State :=
  mkState (prospectId s) (chatHistory s) (currentAudio s)
    (chatInput_value s) (chatMessages s) (next_node s) (audios s)
    (filter (fun n => negb (Nat.eqb n loadingEl)) (pending s)) (outbox s).

(** Lines 28-46: from the call up to the [await fetch].  [None] is the
    early [return] of line 29. *)
Definition sendMessage_begin (s : State) : option (nat * State) :=
  let userMessage := trim (chatInput_value s) in
  if negb (truthy (Some userMessage)) then None
  else
    let (_, s1) := addMessageToUI userMessage (js "user") None false s in
    let s2 := set_input [] s1 in
    let s3 := push (Wire.mkMessage (js "user") userMessage) s2 in
    let (loadingEl, s4) := addMessageToUI (js "...") (js "ai") None true s3 in
    let request :=
      Wire.mkChatBody userMessage (Some (chatHistory s4)) (prospectId s4) in
    Some (loadingEl, fetch_chat request loadingEl s4).

(** Lines 56-63: the [catch] block. *)
Definition sendMessage_catch (loadingEl : nat) (s : State) : State :=
  let s1 := if is_child loadingEl s then removeChild loadingEl s else s in
  snd (addMessageToUI
         (js "Sorry, I am having trouble connecting. Please try again.")
         (js "ai") None false s1).

(** Lines 48-63: from the settling of the [fetch] to the end. *)
Definition sendMessage_resume (loadingEl : nat) (r : fetch_result)
    (s0 : State) : State :=
  let s := settled loadingEl s0 in
  match r with
  | Rejected => sendMessage_catch loadingEl s
  | Resolved ok json =>
      if negb (is_child loadingEl s) then sendMessage_catch loadingEl s
      else
        let s1 := removeChild loadingEl s in
        if negb ok then sendMessage_catch loadingEl s1
        else
          match json with
          | None => sendMessage_catch loadingEl s1
          | Some (textResponse, audioData) =>
              let (_, s2) :=
                addMessageToUI textResponse (js "ai") (Some audioData) false s1 in
              let s3 := push (Wire.mkMessage (js "assistant") textResponse) s2 in
              playAudio audioData s3
          end
  end.

(** One whole turn, the [fetch] settling with [r] before anything else
    happens in the page. *)
Definition sendMessage (r : fetch_result) (s : State) : State :=
  match sendMessage_begin s with
  | None => s
  | Some (loadingEl, s') => sendMessage_resume loadingEl r s'
  end.

(** The turn ends in the [catch] block. *)
Definition failed (r : fetch_result) : bool :=
  match r with
  | Rejected => true
  | Resolved ok json =>
      negb ok || match json with None => true | Some _ => false end
  end.

(** *** The page as a machine *)

Inductive input :=
| Typed (text : jsstring)                   (* the visitor edits #chat-input *)
| Submit                                    (* click on send, or Enter *)
| Settle (loadingEl : nat) (r : fetch_result) (* a pending fetch settles *)
| ClickPlay (n : nat)                       (* the play button of message n *)
| Ended (h : nat).                          (* audio h reaches its end *)

Definition button_of (n : nat) (s : State) : option jsstring :=
  match find (fun e => Nat.eqb (node e) n) (chatMessages s) with
  | Some e => play_button e
  | None => None
  end.

Definition step (i : input) (s : State) : State :=
  match i with
  | Typed text => set_input text s
  | Submit =>
      match sendMessage_begin s with
      | Some (_, s') => s'
      | None => s
      end
  | Settle loadingEl r =>
      if existsb (Nat.eqb loadingEl) (pending s)
      then sendMessage_resume loadingEl r s
      else s
  | ClickPlay n =>
      match button_of n s with
      | Some audioData => playAudio audioData s
      | None => s
      end
  | Ended h =>
      set_audios (update (fun a => mkAudio (src a) false) h (audios s))
        (currentAudio s) s
  end.

Definition run (inputs : list input) (s : State) : State :=
  fold_left (fun s i => step i s) inputs s.

Definition playing_count (s : State) : nat :=
  List.length (filter playing (audios s)).

(** The audio discipline of the page: [currentAudio] is the last [Audio]
    constructed, and no other one is playing. *)
Definition one_player (s : State) : Prop :=
  match currentAudio s with
  | None => audios s = []
  | Some h =>
      exists l a,
        audios s = l ++ [a]
        /\ h = List.length l
        /\ Forall (fun x => playing x = false) l
  end.

End Widget.

(* ===================================================================== *)
(** ** Concrete runs used as test vectors *)
(* ===================================================================== *)

Module Scenario.

Import Wire.

(** The prospect of the spec's scenario and a store holding it. *)
Definition widgets : Server.Row :=
  Server.mkRow 1 (js "Widgets Inc") (js "You sell widgets.") (js "p-123").

Definition widgets_table : Server.Table := Server.mkTable [widgets] 2.

Definition store : Server.Database :=
  Server.mkDatabase true (Some widgets_table).

Definition hi : ChatBody :=
  mkChatBody (js "hi") (Some []) (Some (js "p-123")).

(** A request as the widget sends it on a second turn. *)
Definition second_turn : ChatBody :=
  mkChatBody (js "how much?")
    (Some [mkMessage (js "user") (js "hi");
           mkMessage (js "assistant") (js "Hello!")])
    (Some (js "p-123")).

Definition no_history : ChatBody :=
  mkChatBody (js "hi") None (Some (js "p-123")).


(** Both services answer; the audio stream is the two bytes [XY]. *)
Definition answering : Server.Services :=
  Server.mkServices (fun _ => Server.Ok [js "Hello!"])
                    (fun _ => Server.Ok (bytes "XY")).

(** Text generation answers, speech synthesis fails. *)
Definition mute : Server.Services :=
  Server.mkServices (fun _ => Server.Ok [js "Hello!"])
                    (fun _ => Server.Throw Server.AxiosError).

Definition env : Server.Env :=
  Server.mkEnv (Some (js "admin")) (Some (js "secret")).

Definition steve : option Server.Credentials :=
  Some (Server.mkCredentials (js "admin") (js "secret")).

Definition acme_then_bolt : list Server.CreateForm :=
  [Server.mkCreateForm (Some (js "Acme")) (Some (js "You sell anvils."))
     (js "0b5c1d0e-0000-4000-8000-000000000001");
   Server.mkCreateForm (Some (js "Bolt")) (Some (js "You sell bolts."))
     (js "0b5c1d0e-0000-4000-8000-000000000002")].

(** The widget of that prospect's page, with text typed into the input. *)
Definition page : Widget.State := Widget.init (Some (js "p-123")).

Definition typed_hi : Widget.State := Widget.set_input (js "hi") page.

Definition typed_blank : Widget.State := Widget.set_input (js "   ") page.

End Scenario.

(* ===================================================================== *)
(** ** The application as a whole: routing and start-up *)
(* ===================================================================== *)

Module Routes.

Import Wire Server.

(** A request, by the route it matches, with what the handler reads of it:
    the [prospect] query parameter, the Basic credentials, the form fields
    and the JSON body.  [uniqueId] is what [uuidv4()] returns while the form
    post is handled. *)
Inductive request :=
| GetLanding (prospect : option jsstring)                    (* GET / *)
| GetAdmin (credentials : option Credentials)
           (baseUrl : jsstring)                              (* GET /admin *)
| PostAdminCreate (credentials : option Credentials)
                  (prospectName systemPrompt : option jsstring)
                  (uniqueId : jsstring)                      (* POST /admin/create *)
| PostChat (body : ChatBody).                                (* POST /chat *)

Definition handle (env : Env) (svc : Services) (req : request) : M Response :=
  match req with
  | GetLanding prospect => landing prospect
  | GetAdmin credentials baseUrl => admin env credentials baseUrl
  | PostAdminCreate credentials prospectName systemPrompt uniqueId =>
      admin_create env credentials prospectName systemPrompt uniqueId
  | PostChat body => chat svc body
  end.

(** Requests handled one after the other. *)
Fixpoint serve (env : Env) (svc : Services) (reqs : list request)
    : M (list Response) :=
  match reqs with
  | [] => ret []
  | req :: reqs' =>
      bind (handle env svc req) (fun r =>
      bind (serve env svc reqs') (fun rs =>
      ret (r :: rs)))
  end.

(** The callback of [app.listen] (lines 172-182): the table is created only
    when [DATABASE_URL] is set. *)
Definition listen (DATABASE_URL : option jsstring) : M unit :=
  if truthy DATABASE_URL then initializeDatabase else ret tt.

(** What the column [unique_id TEXT NOT NULL UNIQUE] guarantees: no two
    rows share an identifier and, being PostgreSQL text, none holds U+0000. *)
Definition unique_ids (t : Table) : Prop :=
  NoDup (map unique_id (rows t))
  /\ Forall (fun u => storable u = true) (map unique_id (rows t)).

(** [t'] holds the rows of [t], unchanged and in place, then possibly more. *)
Definition extends (t t' : Table) : Prop :=
  exists added, rows t' = rows t ++ added.

(** The form post is one the table accepts: both NOT NULL columns are
    given, no parameter holds U+0000, the sequence is not exhausted and the
    identifier is not stored yet. *)
Definition acceptable (t : Table) (prospectName systemPrompt : option jsstring)
    (uniqueId : jsstring) : Prop :=
  prospectName <> None /\ systemPrompt <> None
  /\ bindable prospectName = true /\ bindable systemPrompt = true
  /\ storable uniqueId = true
  /\ (id_seq t <= int4_max)%N
  /\ ~ In uniqueId (map unique_id (rows t)).

(** A computation that leaves the database as it found it. *)
Definition read_only {A} (m : M A) : Prop :=
  forall w, db (snd (m w)) = db w.

(** A computation that only adds to the call log, and adds no call to
    OpenRouter or ElevenLabs. *)
Definition internal {A} (m : M A) : Prop :=
  forall w, exists added,
    trace (snd (m w)) = trace w ++ added /\ external_calls added = [].

(** A computation that ends in a response whatever happens inside. *)
Definition answers (m : M Response) : Prop :=
  forall w, exists r, fst (m w) = Ok r.

(** The store cannot answer: the server is unreachable or the table was
    never created. *)
Definition unavailable (d : Database) : Prop :=
  online d = false \/ prospects d = None.

End Routes.

(* ===================================================================== *)
(** ** What the page shows *)
(* ===================================================================== *)

Module Page.

Import Widget.

(** The element carries the [loading] class. *)
Definition is_loading (e : Element) : bool :=
  existsb (jsstring_eqb (js "loading")) (classList e).

(** The loading placeholders on screen, top to bottom. *)
Definition placeholders (s : State) : list nat :=
  map node (filter is_loading (chatMessages s)).

(** Node identities handed out so far are below [next_node]. *)
Definition fresh_nodes (s : State) : Prop :=
  Forall (fun e => node e < next_node s) (chatMessages s)
  /\ Forall (fun n => n < next_node s) (pending s).

(** A string [trim] leaves alone and that is not empty. *)
Definition trimmed_text (m : jsstring) : Prop :=
  m <> [] /\ trim m = m.

(** A transcript entry as [sendMessage] pushes them. *)
Definition widget_entry (m : Wire.message) : Prop :=
  (Wire.role m = js "user" /\ trimmed_text (Wire.content m))
  \/ Wire.role m = js "assistant".

(** A request body as [sendMessage] builds it for the page of [pid]: the
    transcript it carries ends with the visitor message itself. *)
Definition widget_request (pid : option jsstring) (b : Wire.ChatBody) : Prop :=
  trimmed_text (Wire.userMessage b)
  /\ Wire.prospectId b = pid
  /\ exists earlier,
       Forall widget_entry earlier
       /\ Wire.chatHistory b
          = Some (earlier ++ [Wire.mkMessage (js "user") (Wire.userMessage b)]).

(** [l] is an initial segment of [l']. *)
Definition prefix {A} (l l' : list A) : Prop := exists more, l' = l ++ more.

(** What holds of the page of [pid] whatever happened so far. *)
Definition page_invariant (pid : option jsstring) (s : State) : Prop :=
  prospectId s = pid
  /\ Forall widget_entry (chatHistory s)
  /\ Forall (widget_request pid) (outbox s)
  /\ Forall (fun b => exists h, Wire.chatHistory b = Some h
                               /\ prefix h (chatHistory s)) (outbox s)
  /\ placeholders s = pending s
  /\ fresh_nodes s.

(** The three kinds of message [sendMessage] puts on screen. *)
Definition visitor_bubble (n : nat) (text : jsstring) : Element :=
  mkElement n text [js "message"; js "user-message"] None.

Definition apology_bubble (n : nat) : Element :=
  mkElement n (js "Sorry, I am having trouble connecting. Please try again.")
    [js "message"; js "ai-message"] None.

(** The reply, with a play button unless [audioData] is empty. *)
Definition reply_bubble (n : nat) (text audioData : jsstring) : Element :=
  mkElement n text [js "message"; js "ai-message"]
    (if truthy (Some audioData) then Some audioData else None).

(** What a settled turn adds below the visitor's message. *)
Definition answer_bubble (n : nat) (r : fetch_result) : Element :=
  match r with
  | Resolved true (Some (textResponse, audioData)) =>
      reply_bubble n textResponse audioData
  | _ => apology_bubble n
  end.

End Page.

(* ===================================================================== *)
(** ** Further concrete runs *)
(* ===================================================================== *)

Module Cases.

Import Wire.

(** OpenRouter is down. *)
Definition silent : Server.Services :=
  Server.mkServices (fun _ => Server.Throw Server.AxiosError)
                    (fun _ => Server.Ok (bytes "XY")).

(** A server that cannot be reached. *)
Definition offline : Server.Database :=
  Server.mkDatabase false (Some Scenario.widgets_table).

Definition intruder : option Server.Credentials :=
  Some (Server.mkCredentials (js "admin") (js "guess")).

Definition admin_user : Server.Credentials :=
  Server.mkCredentials (js "admin") (js "secret").

(** A session: a prospect is created, then other visitors come and go. *)
Definition busy_day : list Routes.request :=
  [Routes.GetAdmin Scenario.steve (js "http://localhost:3001");
   Routes.PostChat Scenario.hi;
   Routes.PostAdminCreate Cases.intruder (Some (js "Mallory")) (Some (js "x"))
     (js "0b5c1d0e-0000-4000-8000-00000000000f");
   Routes.PostAdminCreate Scenario.steve (Some (js "Bolt")) None
     (js "0b5c1d0e-0000-4000-8000-000000000002");
   Routes.GetLanding None].


(** The widget after a first exchange. *)
Definition after_hello : Widget.State :=
  Widget.sendMessage
    (Widget.Resolved true (Some (js "Hello!", js "data:audio/mpeg;base64,WFk=")))
    Scenario.typed_hi.

End Cases.

(* ===================================================================== *)
(** ** The 6-bit groups of base64 *)
(* ===================================================================== *)

Module Sextets.

(** The four alphabet indices [base64] reads off three consecutive bytes
    [x], [y], [z]; where a byte is missing at the end of the input, 0 stands
    in for it. *)
Definition first (x : N) : N := N.shiftr x 2.

Definition second (x y : N) : N :=
  N.lor (N.shiftl (N.land x 3) 4) (N.shiftr y 4).

Definition third (y z : N) : N :=
  N.lor (N.shiftl (N.land y 15) 2) (N.shiftr z 6).

Definition fourth (z : N) : N := N.land z 63.

(** The values a byte takes, and the indices of the alphabet. *)
Definition octets : list N := map N.of_nat (seq 0 256).

Definition indices : list N := map N.of_nat (seq 0 64).

(** The code unit is one of the 64 letters of the alphabet. *)
Definition is_letter (c : N) : bool :=
  existsb (N.eqb c) (js base64_alphabet).

End Sextets.

(* ===================================================================== *)
(** ** Properties of the JavaScript primitives *)
(* ===================================================================== *)

Module JSFacts.

Lemma jsstring_eqb_eq (a b : jsstring) : jsstring_eqb a b = true <-> a = b.
Proof.
  unfold jsstring_eqb. destruct (list_eq_dec N.eq_dec a b); split; congruence.
Qed.

Lemma jsstring_eqb_refl (a : jsstring) : jsstring_eqb a a = true.
Proof. now apply jsstring_eqb_eq. Qed.

Lemma jsstring_eqb_neq (a b : jsstring) : a <> b -> jsstring_eqb a b = false.
Proof.
  unfold jsstring_eqb. destruct (list_eq_dec N.eq_dec a b); congruence.
Qed.

Lemma truthy_false (v : option jsstring) :
  truthy v = false <-> v = None \/ v = Some [].
Proof.
  destruct v as [[|c s]|]; simpl; split; intros H; auto; try discriminate.
  destruct H; discriminate.
Qed.

Lemma trimStart_blank (s : jsstring) :
  forallb is_white_space s = true -> trimStart s = [].
Proof.
  induction s as [|c s IH]; simpl; [reflexivity|].
  intros H. apply andb_prop in H as [Hc Hs]. rewrite Hc. now apply IH.
Qed.

Lemma trim_blank (s : jsstring) :
  forallb is_white_space s = true -> trim s = [].
Proof.
  intros H. unfold trim, trimEnd. now rewrite (trimStart_blank s H).
Qed.

Example base64_XY : base64 (bytes "XY") = js "WFk=".
Proof. reflexivity. Qed.

Example base64_rfc4648 :
  map (fun s => base64 (bytes s)) ["f"; "fo"; "foo"; "foob"; "fooba"; "foobar"]%string
  = map js ["Zg=="; "Zm8="; "Zm9v"; "Zm9vYg=="; "Zm9vYmE="; "Zm9vYmFy"]%string.
Proof. reflexivity. Qed.

Example trim_padded : trim (js "  hi there ") = js "hi there".
Proof. reflexivity. Qed.

End JSFacts.

(* ===================================================================== *)
(** ** The chat relay and the landing route *)
(* ===================================================================== *)

Module ServerFacts.

Import Wire Server JSFacts.
Local Open Scope handler_scope.

Arguments js : simpl never.
Arguments base64 : simpl never.

(** Unfolds the monad under a handler down to the oracle calls. *)
Ltac step_handler :=
  cbv beta iota delta
    [try_catch bind ret throw emit lift get_db put_db
     select_by_unique_id select_all_desc insert_prospect with_table
     post_openrouter post_elevenlabs calls_of response_of];
  cbn [db trace fst snd negb].

Lemma where_unique_id_sound p t brain rest :
  where_unique_id p t = brain :: rest ->
  In brain (rows t) /\ p = Some (unique_id brain).
Proof.
  destruct p as [s|]; simpl; [|discriminate].
  destruct (storable s); [|discriminate].
  intros H.
  assert (Hin : In brain (filter (fun r => jsstring_eqb (unique_id r) s) (rows t)))
    by (rewrite H; now left).
  apply filter_In in Hin as [Hin Heq].
  apply jsstring_eqb_eq in Heq. now subst.
Qed.

(** An identifier that is found is one the store could bind. *)
Lemma where_unique_id_bindable p t brain rest :
  where_unique_id p t = brain :: rest -> bindable p = true.
Proof.
  destruct p as [s|]; simpl; [|discriminate].
  destruct (storable s); [reflexivity | discriminate].
Qed.


(** The whole run of the handler for an identifier that is looked up and
    found, and a transcript that is present. *)
Lemma chat_found svc d t req brain rest history :
  serving d t ->
  truthy (prospectId req) = true ->
  where_unique_id (prospectId req) t = brain :: rest ->
  chatHistory req = Some history ->
  let messages :=
    mkMessage (js "system") (system_prompt brain)
      :: history ++ [mkMessage (js "user") (userMessage req)] in
  Server.run (chat svc req) d =
    match openrouter svc messages with
    | Throw _ =>
        (Ok (mkResponse 500 (JsonError (js "Failed to get AI response"))),
         mkWorld d [SelectByUniqueId (prospectId req); PostOpenRouter messages])
    | Ok [] =>
        (Ok (mkResponse 500 (JsonError (js "Failed to get AI response"))),
         mkWorld d [SelectByUniqueId (prospectId req); PostOpenRouter messages])
    | Ok (textResponse :: _) =>
        match elevenlabs svc textResponse with
        | Throw _ =>
            (Ok (mkResponse 500 (JsonError (js "Failed to get AI response"))),
             mkWorld d [SelectByUniqueId (prospectId req);
                        PostOpenRouter messages; PostElevenLabs textResponse])
        | Ok audio =>
            (Ok (mkResponse 200
                   (JsonReply textResponse (data_uri (base64 audio)))),
             mkWorld d [SelectByUniqueId (prospectId req);
                        PostOpenRouter messages; PostElevenLabs textResponse])
        end
    end.
Proof.
  intros [Hon Ht] Htruthy Hrows Hhist messages.
  unfold Server.run, chat. rewrite Htruthy. step_handler.
  rewrite Hon, Ht. step_handler.
  rewrite (where_unique_id_bindable _ _ _ _ Hrows). step_handler.
  rewrite Hrows. step_handler.
  unfold build_messages. rewrite Hhist. cbn [spread app]. fold messages.
  destruct (openrouter svc messages) as [[|textResponse others]|e];
    cbn [first_choice app]; try reflexivity.
  destruct (elevenlabs svc textResponse) as [audio|e]; reflexivity.
Qed.

Lemma nth_error_middle (A : Type) (x z : A) (l : list A) (i : nat) :
  i < List.length l -> nth_error (x :: l ++ [z]) (S i) = nth_error l i.
Proof. intros Hi. cbn [nth_error]. now apply nth_error_app1. Qed.

Lemma nth_error_last (A : Type) (x z : A) (l : list A) :
  nth_error (x :: l ++ [z]) (S (List.length l)) = Some z.
Proof.
  cbn [nth_error]. rewrite nth_error_app2 by lia.
  now rewrite Nat.sub_diag.
Qed.

(** C1. For a chat turn whose prospect is found, with a prior transcript of
    N turns and a new visitor message, exactly one text-generation call is
    made and its message sequence has N+2 entries: the system entry carrying
    the stored prompt of the found row verbatim, then the N prior turns in
    their order, then the visitor message as a user entry. *)
Theorem chat_payload_shape svc d t req brain rest history :
  serving d t ->
  truthy (prospectId req) = true ->
  where_unique_id (prospectId req) t = brain :: rest ->
  chatHistory req = Some history ->
  exists messages,
    llm_payloads (calls_of (Server.run (chat svc req) d)) = [messages]
    /\ List.length messages = List.length history + 2
    /\ nth_error messages 0
       = Some (mkMessage (js "system") (system_prompt brain))
    /\ (forall i, i < List.length history ->
          nth_error messages (S i) = nth_error history i)
    /\ nth_error messages (S (List.length history))
       = Some (mkMessage (js "user") (userMessage req))
    /\ In brain (rows t)
    /\ prospectId req = Some (unique_id brain).
Proof.
  intros Hd Hid Hrows Hhist.
  pose proof (chat_found svc d t req brain rest history Hd Hid Hrows Hhist) as Hrun. cbv zeta in Hrun.
  eexists. split.
  { rewrite Hrun. unfold calls_of.
    destruct (openrouter svc _) as [[|textResponse others]|e];
      [reflexivity| |reflexivity].
    destruct (elevenlabs svc textResponse); reflexivity. }
  split. { cbn [List.length]. rewrite length_app. cbn [List.length]. lia. }
  split. { reflexivity. }
  split. { intros i Hi. now apply nth_error_middle. }
  split. { apply nth_error_last. }
  now apply where_unique_id_sound in Hrows.
Qed.

Lemma chat_payload_shape_witness :
  exists messages,
    llm_payloads
      (calls_of (Server.run (chat Scenario.answering Scenario.second_turn)
                   Scenario.store)) = [messages]
    /\ List.length messages = 2 + 2
    /\ nth_error messages 0
       = Some (mkMessage (js "system") (js "You sell widgets."))
    /\ (forall i, i < 2 ->
          nth_error messages (S i)
          = nth_error [mkMessage (js "user") (js "hi");
                       mkMessage (js "assistant") (js "Hello!")] i)
    /\ nth_error messages 3 = Some (mkMessage (js "user") (js "how much?"))
    /\ In Scenario.widgets [Scenario.widgets]
    /\ Some (js "p-123") = Some (js "p-123").
Proof.
  apply (chat_payload_shape Scenario.answering Scenario.store
           Scenario.widgets_table Scenario.second_turn Scenario.widgets []
           [mkMessage (js "user") (js "hi");
            mkMessage (js "assistant") (js "Hello!")]).
  - split; reflexivity.
  - reflexivity.
  - reflexivity.
  - reflexivity.
Defined.

(** C3. When the text-generation call succeeds and the speech-synthesis call
    fails, the handler answers the generic 500 error: the response carries no
    reply text, with or without audio. *)
Theorem synthesis_failure_fails_turn
    svc d t req brain rest history textResponse others e :
  serving d t ->
  truthy (prospectId req) = true ->
  where_unique_id (prospectId req) t = brain :: rest ->
  chatHistory req = Some history ->
  openrouter svc
    (mkMessage (js "system") (system_prompt brain)
       :: history ++ [mkMessage (js "user") (userMessage req)])
    = Ok (textResponse :: others) ->
  elevenlabs svc textResponse = Throw e ->
  let r := Server.run (chat svc req) d in
  fst r = Ok (mkResponse 500 (JsonError (js "Failed to get AI response")))
  /\ (forall st text audio, fst r <> Ok (mkResponse st (JsonReply text audio)))
  /\ external_calls (calls_of r)
     = [PostOpenRouter
          (mkMessage (js "system") (system_prompt brain)
             :: history ++ [mkMessage (js "user") (userMessage req)]);
        PostElevenLabs textResponse].
Proof.
  intros Hd Hid Hrows Hhist Hllm Htts r. subst r.
  pose proof (chat_found svc d t req brain rest history Hd Hid Hrows Hhist) as Hrun. cbv zeta in Hrun.
  rewrite Hllm, Htts in Hrun. rewrite Hrun. cbn [fst].
  split; [reflexivity|]. split; [intros st text audio H; discriminate H|].
  reflexivity.
Qed.

Lemma synthesis_failure_fails_turn_witness :
  let r := Server.run (chat Scenario.mute Scenario.hi) Scenario.store in
  fst r = Ok (mkResponse 500 (JsonError (js "Failed to get AI response")))
  /\ (forall st text audio, fst r <> Ok (mkResponse st (JsonReply text audio)))
  /\ external_calls (calls_of r)
     = [PostOpenRouter
          [mkMessage (js "system") (js "You sell widgets.");
           mkMessage (js "user") (js "hi")];
        PostElevenLabs (js "Hello!")].
Proof.
  apply (synthesis_failure_fails_turn Scenario.mute Scenario.store
           Scenario.widgets_table Scenario.hi Scenario.widgets [] []
           (js "Hello!") [] AxiosError).
  - split; reflexivity.
  - reflexivity.
  - reflexivity.
  - reflexivity.
  - reflexivity.
  - reflexivity.
Defined.

(** The handler for an identifier that is falsy: [undefined] or ['']. *)
Lemma chat_falsy svc d req :
  truthy (prospectId req) = false ->
  Server.run (chat svc req) d
  = (Ok (mkResponse 400 (JsonError (js "Missing Prospect ID"))), mkWorld d []).
Proof. intros H. unfold Server.run, chat. rewrite H. reflexivity. Qed.

Lemma landing_falsy d pid :
  truthy pid = false ->
  Server.run (landing pid) d
  = (Ok (mkResponse 404
           (Send (js "Prospect not found. Please use a valid demo link."))),
     mkWorld d []).
Proof. intros H. unfold Server.run, landing. rewrite H. reflexivity. Qed.

(** The handlers for an identifier that is looked up and matches no row. *)
Lemma chat_unknown svc d t req :
  serving d t ->
  truthy (prospectId req) = true ->
  bindable (prospectId req) = true ->
  where_unique_id (prospectId req) t = [] ->
  Server.run (chat svc req) d
  = (Ok (mkResponse 404 (JsonError (js "Prospect brain not found"))),
     mkWorld d [SelectByUniqueId (prospectId req)]).
Proof.
  intros [Hon Ht] Hid Hb Hrows. unfold Server.run, chat. rewrite Hid.
  step_handler. rewrite Hon, Ht. step_handler. rewrite Hb. step_handler.
  rewrite Hrows. reflexivity.
Qed.


(** The handlers for an identifier the store refuses as a parameter: the
    rejection of [pool.query] lands in the [catch]. *)
Lemma chat_refused svc d req :
  truthy (prospectId req) = true ->
  bindable (prospectId req) = false ->
  Server.run (chat svc req) d
  = (Ok (mkResponse 500 (JsonError (js "Failed to get AI response"))),
     mkWorld d [SelectByUniqueId (prospectId req)]).
Proof.
  intros Hid Hb. unfold Server.run, chat. rewrite Hid. step_handler.
  destruct (online d); [destruct (prospects d)|]; step_handler;
    rewrite ?Hb; reflexivity.
Qed.






(** C9. With the identifier present and equal to the empty string, the chat
    route answers the same 400 "Missing Prospect ID" as for an absent
    identifier and the landing route the same 404 as for an absent one, and
    neither route queries the store. *)
Theorem empty_identifier svc d req req' :
  prospectId req = Some [] ->
  prospectId req' = None ->
  let r := Server.run (chat svc req) d in
  let l := Server.run (landing (Some [])) d in
  fst r = Ok (mkResponse 400 (JsonError (js "Missing Prospect ID")))
  /\ fst r = fst (Server.run (chat svc req') d)
  /\ store_calls (calls_of r) = []
  /\ fst l = Ok (mkResponse 404
                   (Send (js "Prospect not found. Please use a valid demo link.")))
  /\ fst l = fst (Server.run (landing None) d)
  /\ store_calls (calls_of l) = [].
Proof.
  intros He Hn r l. subst r l.
  rewrite (chat_falsy svc d req) by (rewrite He; reflexivity).
  rewrite (chat_falsy svc d req') by (rewrite Hn; reflexivity).
  rewrite !landing_falsy by reflexivity.
  repeat split.
Qed.

Lemma empty_identifier_witness :
  let r := Server.run
             (chat Scenario.answering (mkChatBody (js "hi") (Some []) (Some [])))
             Scenario.store in
  let l := Server.run (landing (Some [])) Scenario.store in
  fst r = Ok (mkResponse 400 (JsonError (js "Missing Prospect ID")))
  /\ fst r = fst (Server.run
                    (chat Scenario.answering (mkChatBody (js "hi") (Some []) None))
                    Scenario.store)
  /\ store_calls (calls_of r) = []
  /\ fst l = Ok (mkResponse 404
                   (Send (js "Prospect not found. Please use a valid demo link.")))
  /\ fst l = fst (Server.run (landing None) Scenario.store)
  /\ store_calls (calls_of l) = [].
Proof.
  apply (empty_identifier Scenario.answering Scenario.store
           (mkChatBody (js "hi") (Some []) (Some []))
           (mkChatBody (js "hi") (Some []) None)); reflexivity.
Defined.

(** C10. When the identifier resolves to a stored prospect and [chatHistory]
    is absent from the body, the handler queries the store and then answers
    the generic 500 "Failed to get AI response" (not a 400), and calls
    neither OpenRouter nor ElevenLabs. *)
Theorem absent_history_is_server_error svc d t req brain rest :
  serving d t ->
  truthy (prospectId req) = true ->
  where_unique_id (prospectId req) t = brain :: rest ->
  chatHistory req = None ->
  let r := Server.run (chat svc req) d in
  fst r = Ok (mkResponse 500 (JsonError (js "Failed to get AI response")))
  /\ store_calls (calls_of r) = [SelectByUniqueId (prospectId req)]
  /\ external_calls (calls_of r) = [].
Proof.
  intros [Hon Ht] Hid Hrows Hhist r. subst r.
  unfold Server.run, chat. rewrite Hid. step_handler.
  rewrite Hon, Ht. step_handler.
  rewrite (where_unique_id_bindable _ _ _ _ Hrows). step_handler.
  rewrite Hrows. step_handler.
  unfold build_messages. rewrite Hhist. cbn [spread]. repeat split.
Qed.

Lemma absent_history_is_server_error_witness :
  let r := Server.run (chat Scenario.answering Scenario.no_history)
             Scenario.store in
  fst r = Ok (mkResponse 500 (JsonError (js "Failed to get AI response")))
  /\ store_calls (calls_of r) = [SelectByUniqueId (Some (js "p-123"))]
  /\ external_calls (calls_of r) = [].
Proof.
  apply (absent_history_is_server_error Scenario.answering Scenario.store
           Scenario.widgets_table Scenario.no_history Scenario.widgets []);
    try reflexivity.
  split; reflexivity.
Defined.

(** C5. For the prospect whose prompt is "You sell widgets.", the visitor
    message "hi" and an empty prior transcript, the text-generation payload
    is the two messages [{system, "You sell widgets."}; {user, "hi"}]; and
    when synthesis returns the bytes [B], the [audioData] of the response is
    "data:audio/mpeg;base64," followed by the base64 encoding of [B]. *)
Theorem widgets_scenario svc d t brain rest reply others B :
  serving d t ->
  where_unique_id (Some (js "p-123")) t = brain :: rest ->
  system_prompt brain = js "You sell widgets." ->
  openrouter svc [mkMessage (js "system") (js "You sell widgets.");
                  mkMessage (js "user") (js "hi")]
    = Ok (reply :: others) ->
  elevenlabs svc reply = Ok B ->
  let r := Server.run (chat svc Scenario.hi) d in
  llm_payloads (calls_of r)
    = [[mkMessage (js "system") (js "You sell widgets.");
        mkMessage (js "user") (js "hi")]]
  /\ fst r = Ok (mkResponse 200
                   (JsonReply reply (js "data:audio/mpeg;base64," ++ base64 B))).
Proof.
  intros Hd Hrows Hprompt Hllm Htts r. subst r.
  pose proof (chat_found svc d t Scenario.hi brain rest [] Hd eq_refl Hrows
                eq_refl) as Hrun.
  cbv zeta in Hrun. rewrite Hprompt in Hrun. cbn [app userMessage Scenario.hi] in Hrun.
  rewrite Hllm, Htts in Hrun. rewrite Hrun. split; reflexivity.
Qed.

Lemma widgets_scenario_witness :
  let r := Server.run (chat Scenario.answering Scenario.hi) Scenario.store in
  llm_payloads (calls_of r)
    = [[mkMessage (js "system") (js "You sell widgets.");
        mkMessage (js "user") (js "hi")]]
  /\ fst r = Ok (mkResponse 200
                   (JsonReply (js "Hello!") (js "data:audio/mpeg;base64,WFk="))).
Proof.
  apply (widgets_scenario Scenario.answering Scenario.store
           Scenario.widgets_table Scenario.widgets [] (js "Hello!") []
           (bytes "XY")); try reflexivity.
  split; reflexivity.
Defined.

End ServerFacts.

(* ===================================================================== *)
(** ** The prospect store and the admin dashboard *)
(* ===================================================================== *)

Module StoreFacts.

Import Server JSFacts.
Local Open Scope N_scope.

Section Ordering.

Lemma insert_desc_below (r : Row) (l : list Row) :
  Forall (fun x => id r < id x) l -> insert_desc r l = (l ++ [r])%list.
Proof.
  induction 1 as [|x l Hx _ IH]; cbn [insert_desc app]; [reflexivity|].
  destruct (N.leb_spec (id x) (id r)); [lia|]. now rewrite IH.
Qed.

Lemma ascending_bounds (l : list Row) : forall lo hi,
  ascending lo l hi -> lo <= hi /\ Forall (fun x => lo <= id x) l.
Proof.
  induction l as [|r l IH]; cbn [ascending]; intros lo hi H.
  - split; [exact H | constructor].
  - destruct H as [Hr Hl]. destruct (IH _ _ Hl) as [Hhi Hall].
    split; [lia|]. constructor; [exact Hr|].
    eapply Forall_impl; [|exact Hall]. cbn. intros; lia.
Qed.

Lemma ascending_weaken (l : list Row) : forall lo hi hi',
  ascending lo l hi -> hi <= hi' -> ascending lo l hi'.
Proof.
  induction l as [|r l IH]; cbn [ascending]; intros lo hi hi' H Hle.
  - lia.
  - destruct H as [Hr Hl]. split; [exact Hr | now apply (IH _ hi)].
Qed.

Lemma ascending_snoc (l : list Row) : forall lo hi r,
  ascending lo l hi -> hi <= id r ->
  ascending lo (l ++ [r]) (N.succ (id r)).
Proof.
  induction l as [|x l IH]; cbn [ascending app]; intros lo hi r H Hle.
  - split; lia.
  - destruct H as [Hx Hl]. split; [exact Hx | now apply (IH _ hi)].
Qed.

(** On a table kept by SERIAL, [ORDER BY id DESC] is the reverse of the
    insertion order. *)
Lemma order_by_id_desc_rev (l : list Row) : forall lo hi,
  ascending lo l hi -> order_by_id_desc l = rev l.
Proof.
  induction l as [|r l IH]; cbn [ascending order_by_id_desc rev];
    intros lo hi H; [reflexivity|].
  destruct H as [_ Hl]. rewrite (IH _ _ Hl).
  apply insert_desc_below. apply Forall_rev.
  destruct (ascending_bounds _ _ _ Hl) as [_ Hall].
  eapply Forall_impl; [|exact Hall]. cbn. intros; lia.
Qed.

End Ordering.

Section Sessions.

Variable env : Env.
Variable c : Credentials.
Hypothesis Hauth : authorized env c.

Lemma checkAuth_authorized (next : M Response) :
  checkAuth env (Some c) next = next.
Proof.
  destruct Hauth as [Hu Hp]. unfold checkAuth, strict_neq.
  rewrite Hu, Hp, !jsstring_eqb_refl. reflexivity.
Qed.

(** One form post on a store that answers: either the redirect and one row
    more at the end of the table, or the 500 and the table as it was. *)
Lemma admin_create_run (f : CreateForm) (d : Database) (t : Table)
    (tr : list event) :
  serving d t -> well_sequenced t ->
  exists r t' tr',
    admin_create env (Some c) (prospectName f) (systemPrompt f) (uniqueId f)
      (mkWorld d tr)
    = (Ok r, mkWorld (mkDatabase (online d) (Some t')) tr')
    /\ well_sequenced t'
    /\ ((status r = 302 /\ exists n p,
           prospectName f = Some n
           /\ rows t'
              = (rows t ++ [mkRow (id_seq t) (toWellFormed n) p (uniqueId f)])%list)
        \/ (status r = 500 /\ rows t' = rows t)).
Proof.
  intros [Hon Ht] Hwf. unfold admin_create. rewrite checkAuth_authorized.
  destruct d as [o pr]. cbn [online prospects] in Hon, Ht. subst o pr.
  cbv beta iota delta
    [try_catch bind ret throw emit get_db put_db insert_prospect with_table];
    cbn [db trace online prospects].
  assert (Hgap : well_sequenced (mkTable (rows t) (N.succ (id_seq t)))).
  { unfold well_sequenced in *. cbn [rows id_seq].
    apply (ascending_weaken _ _ (id_seq t)); [exact Hwf | lia]. }
  assert (Hsame : forall tr',
            exists r t' tr'',
              (Ok (mkResponse 500 (Send (js "Error creating prospect"))),
               mkWorld (mkDatabase true (Some t)) tr')
              = (Ok r, mkWorld (mkDatabase true (Some t')) tr'')
              /\ well_sequenced t'
              /\ ((status r = 302 /\ exists n p,
                     prospectName f = Some n
                     /\ rows t'
                        = (rows t ++ [mkRow (id_seq t) (toWellFormed n) p
                                        (uniqueId f)])%list)
                  \/ (status r = 500 /\ rows t' = rows t))).
  { intros tr'. do 3 eexists. split; [reflexivity|]. split; [exact Hwf|].
    right. split; reflexivity. }
  destruct (negb (bindable (prospectName f) && bindable (systemPrompt f)
                  && storable (uniqueId f))); [apply Hsame|].
  destruct (negb (id_seq t <=? int4_max)); [apply Hsame|].
  destruct (prospectName f) as [n|], (systemPrompt f) as [p|];
    try (do 3 eexists; split; [reflexivity|]; split; [exact Hgap|];
         right; split; reflexivity).
  destruct (existsb _ (rows t)).
  - do 3 eexists. split; [reflexivity|]. split; [exact Hgap|].
    right; split; reflexivity.
  - do 3 eexists. split; [reflexivity|]. split.
    + unfold well_sequenced in *. cbn [rows id_seq].
      apply (ascending_snoc _ _ (id_seq t)); [exact Hwf | cbn [id]; lia].
    + left. split; [reflexivity|]. exists n, (toWellFormed p).
      split; reflexivity.
Qed.

(** A sequence of form posts: the table stays well sequenced and gains, in
    order, one row per post answered by the redirect. *)
Lemma create_all_run (forms : list CreateForm) :
  forall d t tr,
  serving d t -> well_sequenced t ->
  exists rs t' tr',
    create_all env (Some c) forms (mkWorld d tr)
    = (Ok rs, mkWorld (mkDatabase (online d) (Some t')) tr')
    /\ well_sequenced t'
    /\ map (fun r => Some (name r)) (rows t')
       = (map (fun r => Some (name r)) (rows t) ++ accepted_names forms rs)%list.
Proof.
  induction forms as [|f forms IH]; intros d t tr Hd Hwf.
  - exists [], t, tr. destruct Hd as [Hon Ht].
    split; [|split; [exact Hwf | now rewrite app_nil_r]].
    cbn [create_all]. unfold ret. destruct d as [o pr]; cbn in *.
    now subst.
  - destruct (admin_create_run f d t tr Hd Hwf)
      as (r & t1 & tr1 & Hrun & Hwf1 & Hrows).
    assert (Hd1 : serving (mkDatabase (online d) (Some t1)) t1).
    { destruct Hd as [Hon _]. split; [exact Hon | reflexivity]. }
    destruct (IH _ t1 tr1 Hd1 Hwf1) as (rs & t2 & tr2 & Hrest & Hwf2 & Hnames).
    exists (r :: rs), t2, tr2. split; [|split; [exact Hwf2|]].
    + cbn [create_all]. unfold bind at 1. rewrite Hrun.
      unfold bind at 1. rewrite Hrest. reflexivity.
    + rewrite Hnames. cbn [accepted_names].
      destruct Hrows as [[Hst (n & p & Hn & Hr)]|[Hst Hr]]; rewrite Hst, Hr.
      * cbn [N.eqb Pos.eqb]. rewrite Hn, map_app, <- app_assoc. reflexivity.
      * reflexivity.
Qed.

End Sessions.

(** C7. The dashboard lists every stored record, the most recently created
    first: after any sequence of form posts on a freshly initialised store,
    the rows rendered are the rows of the table in the reverse of their
    insertion order, and their names are the names of the accepted posts
    (as the store keeps them), last post first.  In particular, after "Acme"
    then "Bolt" the dashboard shows "Bolt" before "Acme". *)
Theorem dashboard_newest_first env c baseUrl forms :
  authorized env c ->
  (exists rs shown t tr,
     Server.run (admin_session env (Some c) baseUrl forms) fresh
     = (Ok (rs, mkResponse 200 (RenderAdmin shown baseUrl)),
        mkWorld (mkDatabase true (Some t)) tr)
     /\ shown = rev (rows t)
     /\ map (fun r => Some (name r)) shown = rev (accepted_names forms rs))
  /\ dashboard_names
       (fst (Server.run
               (admin_session Scenario.env Scenario.steve baseUrl
                  Scenario.acme_then_bolt) fresh))
     = Some [js "Bolt"; js "Acme"].
Proof.
  intros Hauth. split; [|reflexivity].
  assert (Hd0 : serving (mkDatabase true (Some empty_table)) empty_table)
    by (split; reflexivity).
  assert (Hwf0 : well_sequenced empty_table) by (cbv; discriminate).
  destruct (create_all_run env c Hauth forms _ _ [] Hd0 Hwf0)
    as (rs & t & tr & Hrun & Hwf & Hnames).
  exists rs, (rev (rows t)), t, (tr ++ [SelectAll])%list.
  split; [|split; [reflexivity|]].
  - cbn [online] in Hrun.
    unfold Server.run, admin_session.
    cbv beta iota delta [try_catch bind get_db put_db initializeDatabase].
    cbn [db trace fresh online prospects].
    rewrite Hrun. unfold admin. rewrite (checkAuth_authorized env c Hauth).
    cbv beta iota delta
      [try_catch bind ret throw emit get_db select_all_desc with_table].
    cbn [db trace online prospects].
    rewrite (order_by_id_desc_rev (rows t) 0 (id_seq t) Hwf). reflexivity.
  - rewrite map_rev, Hnames. reflexivity.
Qed.

Lemma dashboard_newest_first_witness :
  (exists rs shown t tr,
     Server.run (admin_session Scenario.env Scenario.steve (js "http://localhost:3001")
                   Scenario.acme_then_bolt) fresh
     = (Ok (rs, mkResponse 200 (RenderAdmin shown (js "http://localhost:3001"))),
        mkWorld (mkDatabase true (Some t)) tr)
     /\ shown = rev (rows t)
     /\ map (fun r => Some (name r)) shown
        = rev (accepted_names Scenario.acme_then_bolt rs))
  /\ dashboard_names
       (fst (Server.run
               (admin_session Scenario.env Scenario.steve (js "http://localhost:3001")
                  Scenario.acme_then_bolt) fresh))
     = Some [js "Bolt"; js "Acme"].
Proof.
  apply (dashboard_newest_first Scenario.env
           (mkCredentials (js "admin") (js "secret"))
           (js "http://localhost:3001") Scenario.acme_then_bolt).
  split; reflexivity.
Defined.

End StoreFacts.

(* ===================================================================== *)
(** ** The chat widget *)
(* ===================================================================== *)

Module WidgetFacts.

Import Widget JSFacts.

(** *** What each piece of [sendMessage] does to the transcript and to the
    outbound requests *)

Lemma sendMessage_begin_blank (s : State) :
  forallb is_white_space (chatInput_value s) = true ->
  sendMessage_begin s = None.
Proof.
  intros H. unfold sendMessage_begin. now rewrite (trim_blank _ H).
Qed.

Lemma sendMessage_begin_text (s : State) :
  trim (chatInput_value s) <> [] ->
  let userMessage := trim (chatInput_value s) in
  let m := Wire.mkMessage (js "user") userMessage in
  exists loadingEl s',
    sendMessage_begin s = Some (loadingEl, s')
    /\ chatHistory s' = chatHistory s ++ [m]
    /\ outbox s'
       = outbox s
         ++ [Wire.mkChatBody userMessage (Some (chatHistory s ++ [m]))
               (prospectId s)]
    /\ prospectId s' = prospectId s
    /\ audios s' = audios s
    /\ currentAudio s' = currentAudio s.
Proof.
  intros Hne userMessage m. unfold sendMessage_begin.
  fold userMessage. destruct userMessage as [|c u] eqn:E; [contradiction|].
  cbn [truthy negb]. do 2 eexists. split; [reflexivity|].
  repeat split.
Qed.

Lemma sendMessage_catch_keeps (loadingEl : nat) (s : State) :
  let s' := sendMessage_catch loadingEl s in
  chatHistory s' = chatHistory s /\ outbox s' = outbox s
  /\ prospectId s' = prospectId s
  /\ audios s' = audios s /\ currentAudio s' = currentAudio s.
Proof.
  unfold sendMessage_catch. destruct (is_child loadingEl s); repeat split.
Qed.

Lemma sendMessage_resume_failed (loadingEl : nat) (r : fetch_result) (s : State) :
  failed r = true ->
  let s' := sendMessage_resume loadingEl r s in
  chatHistory s' = chatHistory s /\ outbox s' = outbox s
  /\ prospectId s' = prospectId s
  /\ audios s' = audios s /\ currentAudio s' = currentAudio s.
Proof.
  intros Hr. unfold sendMessage_resume.
  destruct r as [|ok [[text audio]|]]; cbn [failed] in Hr.
  - apply (sendMessage_catch_keeps loadingEl (settled loadingEl s)).
  - rewrite orb_false_r in Hr. rewrite Hr.
    destruct (is_child loadingEl (settled loadingEl s)); cbn [negb].
    + apply (sendMessage_catch_keeps loadingEl
               (removeChild loadingEl (settled loadingEl s))).
    + apply (sendMessage_catch_keeps loadingEl (settled loadingEl s)).
  - destruct (is_child loadingEl (settled loadingEl s)); cbn [negb].
    + destruct ok; cbn [negb];
        apply (sendMessage_catch_keeps loadingEl
                 (removeChild loadingEl (settled loadingEl s))).
    + apply (sendMessage_catch_keeps loadingEl (settled loadingEl s)).
Qed.

(** C6. When the input is empty or holds only white space, [sendMessage]
    returns at once: no request is handed to [fetch] and the transcript,
    like the rest of the widget, is as it was. *)
Theorem blank_input_is_ignored (s : State) (r : fetch_result) :
  forallb is_white_space (chatInput_value s) = true ->
  sendMessage r s = s
  /\ step Submit s = s
  /\ outbox (sendMessage r s) = outbox s
  /\ chatHistory (sendMessage r s) = chatHistory s.
Proof.
  intros H. unfold sendMessage, step.
  rewrite (sendMessage_begin_blank s H). repeat split.
Qed.

Lemma blank_input_is_ignored_witness :
  sendMessage (Resolved true (Some (js "Hello!", js "data:audio/mpeg;base64,WFk=")))
    Scenario.typed_blank = Scenario.typed_blank
  /\ step Submit Scenario.typed_blank = Scenario.typed_blank
  /\ outbox (sendMessage
               (Resolved true (Some (js "Hello!", js "data:audio/mpeg;base64,WFk=")))
               Scenario.typed_blank) = []
  /\ chatHistory (sendMessage
               (Resolved true (Some (js "Hello!", js "data:audio/mpeg;base64,WFk=")))
               Scenario.typed_blank) = [].
Proof.
  apply (blank_input_is_ignored Scenario.typed_blank
           (Resolved true (Some (js "Hello!", js "data:audio/mpeg;base64,WFk=")))).
  reflexivity.
Defined.

Lemma playAudio_keeps (audioData : jsstring) (s : State) :
  let s' := playAudio audioData s in
  chatHistory s' = chatHistory s /\ outbox s' = outbox s
  /\ prospectId s' = prospectId s.
Proof.
  unfold playAudio, play_current, new_Audio, pause_current.
  destruct (currentAudio s); repeat split.
Qed.

Lemma sendMessage_resume_outbox (loadingEl : nat) (r : fetch_result) (s : State) :
  outbox (sendMessage_resume loadingEl r s) = outbox s.
Proof.
  destruct (failed r) eqn:Hr.
  - now apply sendMessage_resume_failed.
  - destruct r as [|ok [[text audio]|]]; cbn [failed] in Hr; try discriminate.
    + rewrite orb_false_r in Hr. apply negb_false_iff in Hr. subst ok.
      unfold sendMessage_resume.
      destruct (is_child loadingEl (settled loadingEl s)); cbn [negb].
      * cbn [addMessageToUI].
        match goal with
        | |- outbox (playAudio ?d ?x) = _ =>
            destruct (playAudio_keeps d x) as (_ & -> & _)
        end.
        reflexivity.
      * apply (sendMessage_catch_keeps loadingEl (settled loadingEl s)).
    + rewrite orb_true_r in Hr. discriminate.
Qed.

(** C2, as the widget behaves.  A turn that ends in the [catch] block (the
    fetch rejects, the status is not ok, or the body does not parse) adds no
    assistant entry; the visitor's message pushed before the request stays in
    the transcript.  The transcript after the failed turn is the transcript
    before it followed by that message, and the request of the next turn
    carries that transcript followed by the next visitor message. *)
Theorem failed_turn_keeps_visitor_message (s : State) (r : fetch_result) :
  failed r = true ->
  trim (chatInput_value s) <> [] ->
  let m := Wire.mkMessage (js "user") (trim (chatInput_value s)) in
  let s' := sendMessage r s in
  chatHistory s' = chatHistory s ++ [m]
  /\ (forall text r',
        trim text <> [] ->
        exists b,
          outbox (sendMessage r' (set_input text s')) = outbox s' ++ [b]
          /\ Wire.chatHistory b
             = Some (chatHistory s
                       ++ [m; Wire.mkMessage (js "user") (trim text)])).
Proof.
  intros Hr Hne m s'.
  assert (Hs' : chatHistory s' = chatHistory s ++ [m]).
  { subst s'. unfold sendMessage.
    destruct (sendMessage_begin_text s Hne) as (l & s1 & -> & Hh & _).
    destruct (sendMessage_resume_failed l r s1 Hr) as (-> & _). exact Hh. }
  split; [exact Hs'|].
  intros text r' Htext. unfold sendMessage.
  assert (Hin : trim (chatInput_value (set_input text s')) <> []) by exact Htext.
  destruct (sendMessage_begin_text _ Hin) as (l & s2 & -> & _ & Ho & _).
  rewrite sendMessage_resume_outbox, Ho.
  eexists. split; [reflexivity|].
  cbn [Wire.chatHistory set_input chatHistory chatInput_value].
  rewrite Hs', <- app_assoc. reflexivity.
Qed.

Lemma hi_is_text : trim (chatInput_value Scenario.typed_hi) <> [].
Proof. discriminate. Defined.

Lemma failed_turn_keeps_visitor_message_witness :
  let m := Wire.mkMessage (js "user") (js "hi") in
  let s' := sendMessage (Resolved false None) Scenario.typed_hi in
  chatHistory s' = [] ++ [m]
  /\ (forall text r',
        trim text <> [] ->
        exists b,
          outbox (sendMessage r' (set_input text s')) = outbox s' ++ [b]
          /\ Wire.chatHistory b
             = Some ([] ++ [m; Wire.mkMessage (js "user") (trim text)])).
Proof.
  exact (failed_turn_keeps_visitor_message Scenario.typed_hi
           (Resolved false None) eq_refl hi_is_text).
Defined.

(** C2, as the claim words it, fails: after a turn that ends in a network
    failure the transcript still holds the visitor's message of that turn,
    and the request of the next turn carries it. *)
Lemma failed_turn_leaves_trace :
  let s0 := Scenario.typed_hi in
  let s1 := sendMessage Rejected s0 in
  let s2 := sendMessage Rejected (set_input (js "again") s1) in
  chatHistory s0 = []
  /\ chatHistory s1 = [Wire.mkMessage (js "user") (js "hi")]
  /\ chatHistory s1 <> chatHistory s0
  /\ map Wire.chatHistory (outbox s2)
     = [Some [Wire.mkMessage (js "user") (js "hi")];
        Some [Wire.mkMessage (js "user") (js "hi");
              Wire.mkMessage (js "user") (js "again")]]
  /\ nth_error (map Wire.chatHistory (outbox s2)) 1
     <> Some (Some (chatHistory s0 ++ [Wire.mkMessage (js "user") (js "again")])).
Proof.
  cbv zeta. repeat split; try reflexivity; discriminate.
Qed.

(** *** Audio playback *)

Section Update.

Context {A : Type} (f : A -> A).

Lemma update_length (l : list A) : forall n,
  List.length (update f n l) = List.length l.
Proof.
  induction l as [|x l IH]; intros [|n]; cbn [update List.length];
    try reflexivity.
  now rewrite IH.
Qed.

Lemma update_last (l : list A) (a : A) :
  update f (List.length l) (l ++ [a]) = l ++ [f a].
Proof.
  induction l as [|x l IH]; cbn [update List.length app]; [reflexivity|].
  now rewrite IH.
Qed.

Lemma update_snoc (l : list A) (a : A) : forall n,
  exists a', update f n (l ++ [a]) = update f n l ++ [a']
             /\ (a' = a \/ a' = f a).
Proof.
  induction l as [|x l IH]; intros [|n]; simpl.
  - exists (f a). auto.
  - exists a. destruct n; auto.
  - exists a. auto.
  - destruct (IH n) as (a' & -> & Ha'). exists a'. auto.
Qed.

Lemma update_Forall (P : A -> Prop) (l : list A) : forall n,
  (forall x, P x -> P (f x)) -> Forall P l -> Forall P (update f n l).
Proof.
  intros n Hf H. revert n.
  induction H as [|x l Hx Hl IH]; intros [|n]; cbn [update];
    constructor; auto.
Qed.

End Update.

Lemma filter_playing_none (l : list Audio) :
  Forall (fun x => playing x = false) l -> filter playing l = [].
Proof.
  induction 1 as [|x l Hx _ IH]; cbn [filter]; [reflexivity|].
  now rewrite Hx.
Qed.

Lemma one_player_init (pid : option jsstring) : one_player (init pid).
Proof. reflexivity. Qed.

(** After [pause_current] nothing plays. *)
Lemma pause_current_silent (s : State) :
  one_player s -> Forall (fun x => playing x = false) (audios (pause_current s)).
Proof.
  unfold one_player, pause_current. destruct (currentAudio s) as [h|].
  - intros (l & a & Ha & -> & Hl). cbn [audios set_audios].
    rewrite Ha, update_last. apply Forall_app. split; [exact Hl|].
    constructor; [reflexivity | constructor].
  - intros ->. constructor.
Qed.

Lemma pause_current_length (s : State) :
  List.length (audios (pause_current s)) = List.length (audios s).
Proof.
  unfold pause_current. destruct (currentAudio s); [|reflexivity].
  cbn [audios set_audios]. apply update_length.
Qed.

(** [playAudio] in full: every earlier [Audio] is silent, the new one is
    the last, is current, and plays. *)
Lemma playAudio_spec (audioData : jsstring) (s : State) :
  one_player s ->
  audios (playAudio audioData s)
  = audios (pause_current s) ++ [mkAudio audioData true]
  /\ currentAudio (playAudio audioData s) = Some (List.length (audios s))
  /\ Forall (fun x => playing x = false) (audios (pause_current s)).
Proof.
  intros H. pose proof (pause_current_silent s H) as Hsilent.
  pose proof (pause_current_length s) as Hlen.
  unfold playAudio, play_current, new_Audio.
  cbn [currentAudio set_audios audios]. rewrite update_last. cbn [src].
  rewrite Hlen. repeat split. exact Hsilent.
Qed.

Lemma one_player_playAudio (audioData : jsstring) (s : State) :
  one_player s -> one_player (playAudio audioData s).
Proof.
  intros H. destruct (playAudio_spec audioData s H) as (Ha & Hc & Hs).
  unfold one_player. rewrite Hc, Ha.
  exists (audios (pause_current s)), (mkAudio audioData true).
  split; [reflexivity|]. split; [|exact Hs].
  now rewrite pause_current_length.
Qed.

(** [one_player] only reads [audios] and [currentAudio]. *)
Lemma one_player_ext (s s' : State) :
  audios s' = audios s -> currentAudio s' = currentAudio s ->
  one_player s -> one_player s'.
Proof. unfold one_player. now intros -> ->. Qed.

Lemma one_player_ended (h : nat) (s : State) :
  one_player s -> one_player (step (Ended h) s).
Proof.
  unfold one_player. cbn [step set_audios currentAudio audios].
  destruct (currentAudio s) as [c|].
  - intros (l & a & -> & -> & Hl).
    destruct (update_snoc (fun a => mkAudio (src a) false) l a h)
      as (a' & -> & _).
    eexists _, a'. split; [reflexivity|]. split.
    + now rewrite update_length.
    + apply update_Forall; [reflexivity | exact Hl].
  - intros ->. now destruct h.
Qed.

Lemma one_player_resume (loadingEl : nat) (r : fetch_result) (s : State) :
  one_player s -> one_player (sendMessage_resume loadingEl r s).
Proof.
  intros H. destruct (failed r) eqn:Hr.
  - destruct (sendMessage_resume_failed loadingEl r s Hr) as (_ & _ & _ & Ha & Hc).
    exact (one_player_ext _ _ Ha Hc H).
  - destruct r as [|ok [[text audio]|]]; cbn [failed] in Hr; try discriminate.
    + rewrite orb_false_r in Hr. apply negb_false_iff in Hr. subst ok.
      unfold sendMessage_resume.
      destruct (is_child loadingEl (settled loadingEl s)); cbn [negb].
      * cbn [addMessageToUI]. apply one_player_playAudio. exact H.
      * destruct (sendMessage_catch_keeps loadingEl (settled loadingEl s))
          as (_ & _ & _ & Ha & Hc).
        exact (one_player_ext _ _ Ha Hc H).
    + rewrite orb_true_r in Hr. discriminate.
Qed.

Lemma one_player_step (i : input) (s : State) :
  one_player s -> one_player (step i s).
Proof.
  intros H. destruct i as [text| |loadingEl r|n|h].
  - exact H.
  - cbn [step]. destruct (sendMessage_begin s) as [[l s']|] eqn:E; [|exact H].
    unfold sendMessage_begin in E.
    destruct (negb (truthy (Some (trim (chatInput_value s))))); [discriminate|].
    injection E as _ <-. exact H.
  - cbn [step]. destruct (existsb _ _); [|exact H].
    now apply one_player_resume.
  - cbn [step]. destruct (button_of n s); [|exact H].
    now apply one_player_playAudio.
  - now apply one_player_ended.
Qed.

Lemma one_player_run (inputs : list input) : forall s,
  one_player s -> one_player (run inputs s).
Proof.
  induction inputs as [|i inputs IH]; intros s H; [exact H|].
  cbn [run fold_left]. apply IH. now apply one_player_step.
Qed.

Lemma one_player_count (s : State) : one_player s -> playing_count s <= 1.
Proof.
  unfold one_player, playing_count. destruct (currentAudio s) as [h|].
  - intros (l & a & -> & _ & Hl). rewrite filter_app, (filter_playing_none l Hl).
    cbn [filter app]. destruct (playing a); cbn [List.length]; lia.
  - intros ->. cbn. lia.
Qed.

(** C8. Whatever the visitor does and whatever the fetches deliver, at most
    one [Audio] is playing; and [playAudio], statement by statement, first
    pauses the current instance (nothing plays), then constructs the new one
    (still nothing plays), then starts it: the new instance is current and
    is the only one playing, and nothing is queued behind it. *)
Theorem at_most_one_audio_plays (pid : option jsstring) (inputs : list input)
    (audioData : jsstring) :
  let s := run inputs (init pid) in
  playing_count s <= 1
  /\ playing_count (pause_current s) = 0
  /\ playing_count (new_Audio audioData (pause_current s)) = 0
  /\ filter playing (audios (playAudio audioData s)) = [mkAudio audioData true]
  /\ currentAudio (playAudio audioData s) = Some (List.length (audios s))
  /\ nth_error (audios (playAudio audioData s)) (List.length (audios s))
     = Some (mkAudio audioData true)
  /\ playing_count (playAudio audioData s) = 1.
Proof.
  intros s.
  assert (H : one_player s) by (apply one_player_run, one_player_init).
  destruct (playAudio_spec audioData s H) as (Ha & Hc & Hs).
  pose proof (filter_playing_none _ Hs) as Hnone.
  assert (Hplay : filter playing (audios (playAudio audioData s))
                  = [mkAudio audioData true]).
  { rewrite Ha, filter_app, Hnone. reflexivity. }
  split; [now apply one_player_count|].
  split; [unfold playing_count; now rewrite Hnone|].
  split.
  { unfold playing_count, new_Audio. cbn [audios set_audios].
    rewrite filter_app, Hnone. reflexivity. }
  split; [exact Hplay|]. split; [exact Hc|]. split.
  - rewrite Ha, nth_error_app2; rewrite pause_current_length; [|lia].
    now rewrite Nat.sub_diag.
  - unfold playing_count. now rewrite Hplay.
Qed.

(** Two sends fired before either fetch settles, the replies arriving in
    the opposite order: the first reply to arrive is paused when the second
    one starts. *)
Example overlapping_turns_one_player :
  let reply audioData := Resolved true (Some (js "ok", audioData)) in
  let s := run [Typed (js "one"); Submit; Typed (js "two"); Submit;
                Settle 3 (reply (js "data:audio/mpeg;base64,Mg=="));
                Settle 1 (reply (js "data:audio/mpeg;base64,MQ=="))]
             Scenario.page in
  audios s = [mkAudio (js "data:audio/mpeg;base64,Mg==") false;
              mkAudio (js "data:audio/mpeg;base64,MQ==") true]
  /\ currentAudio s = Some 1
  /\ pending s = [].
Proof. repeat split. Qed.

End WidgetFacts.

(* ===================================================================== *)
(** ** The widget against the relay *)
(* ===================================================================== *)

Module EndToEnd.

Import Wire.

(** The body the widget hands to [fetch] already holds the visitor message
    at the end of [chatHistory] (line 33 runs before line 38), and the relay
    appends [userMessage] once more: on the first turn "hi" the
    text-generation payload is system, "hi", "hi". *)
Remark first_turn_payload :
  let s := Widget.step Widget.Submit Scenario.typed_hi in
  Widget.outbox s
  = [mkChatBody (js "hi") (Some [mkMessage (js "user") (js "hi")])
       (Some (js "p-123"))]
  /\ map (fun b => Server.llm_payloads
                     (Server.calls_of
                        (Server.run (Server.chat Scenario.answering b)
                           Scenario.store)))
         (Widget.outbox s)
     = [[[mkMessage (js "system") (js "You sell widgets.");
          mkMessage (js "user") (js "hi");
          mkMessage (js "user") (js "hi")]]].
Proof. split; reflexivity. Qed.

End EndToEnd.

(* ===================================================================== *)
(** ** More on [trim] and on the base64 text *)
(* ===================================================================== *)

Module TextFacts.

Import JSFacts.

Lemma trimStart_nil (s : jsstring) :
  trimStart s = [] -> forallb is_white_space s = true.
Proof.
  induction s as [|c s IH]; cbn [trimStart forallb]; [reflexivity|].
  destruct (is_white_space c); [exact IH | discriminate].
Qed.

Lemma trimStart_head (s : jsstring) (c : N) (u : jsstring) :
  trimStart s = c :: u -> is_white_space c = false.
Proof.
  induction s as [|x s IH]; cbn [trimStart]; [discriminate|].
  destruct (is_white_space x) eqn:E; [exact IH|].
  intros H. injection H as <- _. exact E.
Qed.

Lemma trimStart_keep (c : N) (u : jsstring) :
  is_white_space c = false -> trimStart (c :: u) = c :: u.
Proof. intros H. cbn [trimStart]. now rewrite H. Qed.

(** Trimming the front of a string whose last code unit is not white space
    keeps that code unit. *)
Lemma trimStart_snoc (l : jsstring) (c : N) :
  is_white_space c = false -> exists z, trimStart (l ++ [c]) = z ++ [c].
Proof.
  intros H. induction l as [|x l IH]; cbn [app trimStart].
  - rewrite H. now exists [].
  - destruct (is_white_space x); [exact IH|]. now exists (x :: l).
Qed.

(** The shape of a trimmed string that is not empty: its first and its last
    code units are not white space. *)
Lemma trim_shape (s : jsstring) :
  trim s = []
  \/ exists c u w d,
       trim s = c :: u /\ trim s = w ++ [d]
       /\ is_white_space c = false /\ is_white_space d = false.
Proof.
  unfold trim, trimEnd.
  destruct (trimStart s) as [|c u] eqn:Es; [now left|].
  right. pose proof (trimStart_head s c u Es) as Hc.
  cbn [rev]. destruct (trimStart_snoc (rev u) c Hc) as (z & Hz).
  rewrite Hz, rev_app_distr. cbn [rev app].
  destruct z as [|d z'].
  - exists c, [], [], c. cbn. auto.
  - assert (Hd : is_white_space d = false).
    { cbn [app] in Hz. exact (trimStart_head _ _ _ Hz). }
    exists c, (rev (d :: z')), (c :: rev z'), d. cbn [rev app]. auto.
Qed.

Lemma trim_nil_iff (s : jsstring) :
  trim s = [] <-> forallb is_white_space s = true.
Proof.
  split; [|apply trim_blank].
  intros H. apply trimStart_nil.
  destruct (trimStart s) as [|c u] eqn:Es; [reflexivity|].
  exfalso. unfold trim, trimEnd in H. rewrite Es in H.
  cbn [rev] in H.
  destruct (trimStart_snoc (rev u) c (trimStart_head s c u Es)) as (z & Hz).
  rewrite Hz, rev_app_distr in H. discriminate H.
Qed.

Lemma trim_idempotent (s : jsstring) : trim (trim s) = trim s.
Proof.
  destruct (trim_shape s) as [->|(c & u & w & d & Hcu & Hwd & Hc & Hd)];
    [reflexivity|].
  unfold trim at 1. rewrite Hcu at 1. rewrite (trimStart_keep c u Hc).
  rewrite <- Hcu, Hwd. unfold trimEnd. rewrite rev_app_distr. cbn [rev app].
  rewrite (trimStart_keep d (rev w) Hd).
  cbn [rev]. now rewrite rev_involutive.
Qed.

Lemma trim_first (s : jsstring) (c : N) (u : jsstring) :
  trim s = c :: u -> is_white_space c = false.
Proof.
  intros H. destruct (trim_shape s) as [E|(c' & u' & _ & _ & E & _ & Hc & _)];
    rewrite H in E; [discriminate|].
  injection E as <- _. exact Hc.
Qed.

Lemma trim_last (s : jsstring) (w : jsstring) (d : N) :
  trim s = w ++ [d] -> is_white_space d = false.
Proof.
  intros H. destruct (trim_shape s) as [E|(_ & _ & w' & d' & _ & E & _ & Hd)];
    rewrite H in E.
  - destruct w; discriminate.
  - apply app_inj_tail in E as [_ <-]. exact Hd.
Qed.

(** *** The length of the base64 text *)

Lemma base64_length_ind (P : list byte -> Prop) :
  P [] -> (forall a, P [a]) -> (forall a b, P [a; b]) ->
  (forall a b c rest, P rest -> P (a :: b :: c :: rest)) ->
  forall bs, P bs.
Proof.
  intros H0 H1 H2 H3.
  fix IH 1. intros [|a [|b [|c rest]]].
  - exact H0.
  - exact (H1 a).
  - exact (H2 a b).
  - exact (H3 a b c rest (IH rest)).
Qed.

Lemma base64_group (a b c : byte) (rest : list byte) :
  exists w x y z, base64 (a :: b :: c :: rest) = w :: x :: y :: z :: base64 rest.
Proof. do 4 eexists. reflexivity. Qed.

Lemma base64_length (bs : list byte) :
  List.length (base64 bs) = 4 * ((List.length bs + 2) / 3).
Proof.
  induction bs as [|a|a b|a b c rest IH] using base64_length_ind;
    try reflexivity.
  destruct (base64_group a b c rest) as (w & x & y & z & ->).
  cbn [List.length]. rewrite IH.
  replace (S (S (S (List.length rest))) + 2)
    with (1 * 3 + (List.length rest + 2)) by lia.
  rewrite Nat.div_add_l by lia. lia.
Qed.

End TextFacts.

(* ===================================================================== *)
(** ** The routes, on every request *)
(* ===================================================================== *)

Module RouteFacts.

Import Wire Server Routes JSFacts.
Local Open Scope handler_scope.

(** *** How the three properties pass through the monad *)

Section Combinators.

Context {A B : Type}.

Lemma read_only_ret (a : A) : read_only (ret a).
Proof. intros w. reflexivity. Qed.

Lemma read_only_throw (e : exn) : read_only (@throw A e).
Proof. intros w. reflexivity. Qed.

Lemma read_only_lift (o : outcome A) : read_only (lift o).
Proof. intros w. reflexivity. Qed.

Lemma read_only_bind (m : M A) (k : A -> M B) :
  read_only m -> (forall a, read_only (k a)) -> read_only (bind m k).
Proof.
  intros Hm Hk w. unfold bind. specialize (Hm w).
  destruct (m w) as [[a|e] w']; cbn [snd] in *; [|exact Hm].
  now rewrite Hk.
Qed.

Lemma read_only_try_catch (m : M A) (h : exn -> M A) :
  read_only m -> (forall e, read_only (h e)) -> read_only (try_catch m h).
Proof.
  intros Hm Hh w. unfold try_catch. specialize (Hm w).
  destruct (m w) as [[a|e] w']; cbn [snd] in *; [exact Hm|].
  now rewrite Hh.
Qed.

Lemma internal_ret (a : A) : internal (ret a).
Proof. intros w. exists []. now rewrite app_nil_r. Qed.

Lemma internal_throw (e : exn) : internal (@throw A e).
Proof. intros w. exists []. now rewrite app_nil_r. Qed.

Lemma internal_bind (m : M A) (k : A -> M B) :
  internal m -> (forall a, internal (k a)) -> internal (bind m k).
Proof.
  intros Hm Hk w. unfold bind. destruct (Hm w) as (l1 & H1 & E1).
  destruct (m w) as [[a|e] w']; cbn [snd] in *; [|now exists l1].
  destruct (Hk a w') as (l2 & H2 & E2). exists (l1 ++ l2).
  rewrite H2, H1, app_assoc. split; [reflexivity|].
  unfold external_calls in *. now rewrite filter_app, E1, E2.
Qed.

Lemma internal_try_catch (m : M A) (h : exn -> M A) :
  internal m -> (forall e, internal (h e)) -> internal (try_catch m h).
Proof.
  intros Hm Hh w. unfold try_catch. destruct (Hm w) as (l1 & H1 & E1).
  destruct (m w) as [[a|e] w']; cbn [snd] in *; [now exists l1|].
  destruct (Hh e w') as (l2 & H2 & E2). exists (l1 ++ l2).
  rewrite H2, H1, app_assoc. split; [reflexivity|].
  unfold external_calls in *. now rewrite filter_app, E1, E2.
Qed.

End Combinators.

Lemma answers_try_catch (m : M Response) (r : Response) :
  answers (try_catch m (fun _ => ret r)).
Proof.
  intros w. unfold try_catch. destruct (m w) as [[a|e] w']; eexists; reflexivity.
Qed.

Lemma read_only_emit (e : event) : read_only (emit e).
Proof. intros w. reflexivity. Qed.

Lemma read_only_with_table : read_only with_table.
Proof.
  intros [d tr]. unfold with_table, bind, get_db. cbn [db].
  destruct (online d); [destruct (prospects d)|]; reflexivity.
Qed.

Lemma internal_with_table : internal with_table.
Proof.
  intros [d tr]. exists []. rewrite app_nil_r. split; [|reflexivity].
  unfold with_table, bind, get_db. cbn [db].
  destruct (online d); [destruct (prospects d)|]; reflexivity.
Qed.

Lemma internal_emit_store (e : event) : is_external e = false -> internal (emit e).
Proof.
  intros He w. exists [e]. split; [reflexivity|].
  unfold external_calls. cbn [filter]. now rewrite He.
Qed.

Lemma read_only_select_by_unique_id (p : option jsstring) :
  read_only (select_by_unique_id p).
Proof.
  unfold select_by_unique_id.
  apply read_only_bind; [apply read_only_emit|]. intros _.
  apply read_only_bind; [apply read_only_with_table|]. intros t.
  destruct (bindable p); [apply read_only_ret | apply read_only_throw].
Qed.

Lemma internal_select_by_unique_id (p : option jsstring) :
  internal (select_by_unique_id p).
Proof.
  unfold select_by_unique_id.
  apply internal_bind; [now apply internal_emit_store|]. intros _.
  apply internal_bind; [apply internal_with_table|]. intros t.
  destruct (bindable p); [apply internal_ret | apply internal_throw].
Qed.

Lemma read_only_landing (pid : option jsstring) : read_only (landing pid).
Proof.
  unfold landing. destruct (negb (truthy pid)); [apply read_only_ret|].
  apply read_only_try_catch; [|intros _; apply read_only_ret].
  apply read_only_bind; [apply read_only_select_by_unique_id|].
  intros [|r l]; apply read_only_ret.
Qed.

Lemma read_only_checkAuth env credentials (next : M Response) :
  read_only next -> read_only (checkAuth env credentials next).
Proof.
  intros H. unfold checkAuth. destruct credentials as [c|]; [|apply read_only_ret].
  destruct (_ || _); [apply read_only_ret | exact H].
Qed.

Lemma read_only_admin env credentials baseUrl :
  read_only (admin env credentials baseUrl).
Proof.
  unfold admin. apply read_only_checkAuth.
  apply read_only_try_catch; [|intros _; apply read_only_ret].
  apply read_only_bind; [|intros l; apply read_only_ret].
  unfold select_all_desc.
  apply read_only_bind; [apply read_only_emit|]. intros _.
  apply read_only_bind; [apply read_only_with_table|]. intros t.
  apply read_only_ret.
Qed.

Lemma read_only_chat svc req : read_only (chat svc req).
Proof.
  unfold chat. destruct (negb _); [apply read_only_ret|].
  apply read_only_try_catch; [|intros _; apply read_only_ret].
  apply read_only_bind; [apply read_only_select_by_unique_id|].
  intros [|brain rest]; [apply read_only_ret|]. cbv zeta.
  apply read_only_bind; [apply read_only_lift|]. intros messages.
  apply read_only_bind.
  { unfold post_openrouter. apply read_only_bind; [apply read_only_emit|].
    intros _. apply read_only_lift. }
  intros choices. apply read_only_bind; [apply read_only_lift|].
  intros textResponse. apply read_only_bind.
  { unfold post_elevenlabs. apply read_only_bind; [apply read_only_emit|].
    intros _. apply read_only_lift. }
  intros audio. apply read_only_ret.
Qed.

Lemma internal_landing (pid : option jsstring) : internal (landing pid).
Proof.
  unfold landing. destruct (negb (truthy pid)); [apply internal_ret|].
  apply internal_try_catch; [|intros _; apply internal_ret].
  apply internal_bind; [apply internal_select_by_unique_id|].
  intros [|r l]; apply internal_ret.
Qed.

Lemma internal_checkAuth env credentials (next : M Response) :
  internal next -> internal (checkAuth env credentials next).
Proof.
  intros H. unfold checkAuth. destruct credentials as [c|]; [|apply internal_ret].
  destruct (_ || _); [apply internal_ret | exact H].
Qed.

Lemma internal_admin env credentials baseUrl :
  internal (admin env credentials baseUrl).
Proof.
  unfold admin. apply internal_checkAuth.
  apply internal_try_catch; [|intros _; apply internal_ret].
  apply internal_bind; [|intros l; apply internal_ret].
  unfold select_all_desc.
  apply internal_bind; [now apply internal_emit_store|]. intros _.
  apply internal_bind; [apply internal_with_table|]. intros t.
  apply internal_ret.
Qed.

Lemma internal_put_db (d : Database) : internal (put_db d).
Proof. intros w. exists []. now rewrite app_nil_r. Qed.

Lemma internal_get_db : internal get_db.
Proof. intros w. exists []. now rewrite app_nil_r. Qed.

Lemma internal_admin_create env credentials n p u :
  internal (admin_create env credentials n p u).
Proof.
  unfold admin_create. apply internal_checkAuth.
  apply internal_try_catch; [|intros _; apply internal_ret].
  apply internal_bind; [|intros _; apply internal_ret].
  unfold insert_prospect.
  apply internal_bind; [now apply internal_emit_store|]. intros _.
  apply internal_bind; [apply internal_with_table|]. intros t.
  apply internal_bind; [apply internal_get_db|]. intros d.
  destruct (negb (_ && _ && _)); [apply internal_throw|]. cbv zeta.
  destruct (negb (_ <=? _)%N); [apply internal_throw|].
  destruct n, p;
    try (apply internal_bind; [apply internal_put_db|];
         intros _; apply internal_throw).
  destruct (existsb _ _); [|apply internal_put_db].
  apply internal_bind; [apply internal_put_db|]. intros _. apply internal_throw.
Qed.

(** X1. Every route ends in a response: whatever the store and the two
    services do, no exception leaves a handler. *)
Theorem every_request_is_answered env svc req : answers (handle env svc req).
Proof.
  destruct req as [pid|c b|c n p u|body]; cbn [handle].
  - unfold landing. destruct (negb _); [intros w; eexists; reflexivity|].
    apply answers_try_catch.
  - unfold admin, checkAuth. destruct c as [c|]; [|intros w; eexists; reflexivity].
    destruct (_ || _); [intros w; eexists; reflexivity|].
    apply answers_try_catch.
  - unfold admin_create, checkAuth.
    destruct c as [c|]; [|intros w; eexists; reflexivity].
    destruct (_ || _); [intros w; eexists; reflexivity|].
    apply answers_try_catch.
  - unfold chat. destruct (negb _); [intros w; eexists; reflexivity|].
    apply answers_try_catch.
Qed.

(** X2. Only [POST /admin/create] writes: the landing page, the dashboard
    and a chat turn leave the database exactly as they found it, whatever
    the request and whatever the services answer. *)
Theorem only_create_writes env svc req :
  (forall c n p u, req <> PostAdminCreate c n p u) ->
  read_only (handle env svc req).
Proof.
  intros H. destruct req as [pid|c b|c n p u|body]; cbn [handle].
  - apply read_only_landing.
  - apply read_only_admin.
  - now destruct (H c n p u).
  - apply read_only_chat.
Qed.

Lemma only_create_writes_witness :
  read_only (handle Scenario.env Scenario.answering (PostChat Scenario.hi)).
Proof.
  apply (only_create_writes Scenario.env Scenario.answering
           (PostChat Scenario.hi)).
  intros c n p u. discriminate.
Defined.

(** X3. Only [POST /chat] leaves the process for the two services: the
    landing page and both admin routes add store queries to the call log and
    never a call to OpenRouter or ElevenLabs. *)
Theorem only_chat_calls_out env svc req :
  (forall body, req <> PostChat body) ->
  internal (handle env svc req).
Proof.
  intros H. destruct req as [pid|c b|c n p u|body]; cbn [handle].
  - apply internal_landing.
  - apply internal_admin.
  - apply internal_admin_create.
  - now destruct (H body).
Qed.

Lemma only_chat_calls_out_witness :
  internal (handle Scenario.env Scenario.answering
              (GetLanding (Some (js "p-123")))).
Proof.
  apply (only_chat_calls_out Scenario.env Scenario.answering
           (GetLanding (Some (js "p-123")))).
  intros body. discriminate.
Defined.

(** *** The chat relay, case by case *)

Lemma serving_or_unavailable (d : Database) :
  (exists t, serving d t) \/ unavailable d.
Proof.
  unfold serving, unavailable.
  destruct (online d); [|now right; left].
  destruct (prospects d) as [t|]; [left; now exists t | now right; right].
Qed.

Lemma chat_unavailable svc d req :
  unavailable d ->
  truthy (prospectId req) = true ->
  Server.run (chat svc req) d
  = (Ok (mkResponse 500 (JsonError (js "Failed to get AI response"))),
     mkWorld d [SelectByUniqueId (prospectId req)]).
Proof.
  intros Hd Hid. unfold Server.run, chat. rewrite Hid.
  ServerFacts.step_handler.
  destruct Hd as [Hd|Hd]; rewrite Hd; [reflexivity|].
  destruct (online d); reflexivity.
Qed.

Lemma chat_without_history svc d t req brain rest :
  serving d t ->
  truthy (prospectId req) = true ->
  where_unique_id (prospectId req) t = brain :: rest ->
  chatHistory req = None ->
  Server.run (chat svc req) d
  = (Ok (mkResponse 500 (JsonError (js "Failed to get AI response"))),
     mkWorld d [SelectByUniqueId (prospectId req)]).
Proof.
  intros [Hon Ht] Hid Hrows Hh. unfold Server.run, chat. rewrite Hid.
  ServerFacts.step_handler. rewrite Hon, Ht. ServerFacts.step_handler.
  rewrite (ServerFacts.where_unique_id_bindable _ _ _ _ Hrows).
  ServerFacts.step_handler. rewrite Hrows. ServerFacts.step_handler.
  unfold build_messages. rewrite Hh. reflexivity.
Qed.

(** Splits a goal about [Server.run (chat svc req) d] into the eight runs
    of the handler, rewriting the run in each. *)
Ltac chat_by_cases svc d req :=
  destruct (truthy (prospectId req)) eqn:Hid;
  [ destruct (serving_or_unavailable d) as [[t Hd]|Hd];
    [ destruct (where_unique_id (prospectId req) t) as [|brain rest] eqn:Hrows;
      [ destruct (bindable (prospectId req)) eqn:Hbind;
        [ rewrite (ServerFacts.chat_unknown svc d t req Hd Hid Hbind Hrows)
        | rewrite (ServerFacts.chat_refused svc d req Hid Hbind) ]
      | destruct (chatHistory req) as [history|] eqn:Hh;
        [ let H := fresh in
          pose proof (ServerFacts.chat_found svc d t req brain rest history
                        Hd Hid Hrows Hh) as H;
          cbv zeta in H; rewrite H; clear H;
          destruct (openrouter svc _) as [[|reply0 others0]|e1] eqn:Hllm;
          [ | destruct (elevenlabs svc reply0) as [B0|e2] eqn:Htts | ]
        | rewrite (chat_without_history svc d t req brain rest Hd Hid Hrows Hh) ] ]
    | rewrite (chat_unavailable svc d req Hd Hid) ]
  | rewrite (ServerFacts.chat_falsy svc d req Hid) ].

(** X4. Whatever the request, the store and the services, a chat turn
    calls OpenRouter at most once and ElevenLabs at most once, ElevenLabs
    only after OpenRouter has answered, and with the first choice of that
    answer as the text to speak. *)
Theorem chat_call_discipline svc d req :
  let calls := external_calls (calls_of (Server.run (chat svc req) d)) in
  calls = []
  \/ (exists messages, calls = [PostOpenRouter messages])
  \/ (exists messages text others,
        calls = [PostOpenRouter messages; PostElevenLabs text]
        /\ openrouter svc messages = Ok (text :: others)).
Proof.
  cbv zeta. chat_by_cases svc d req; unfold calls_of; cbn [snd trace];
    try (left; reflexivity);
    try (right; left; eexists; reflexivity);
    right; right; do 3 eexists; (split; [reflexivity | exact Hllm]).
Qed.

(** X5. A reply leaves the relay only when everything succeeded: if the
    response carries a reply text, then its status is 200, the prospect was
    found, OpenRouter answered with that text as first choice, ElevenLabs
    answered for that very text, and the audio is the data URI of the bytes
    ElevenLabs returned. *)
Theorem reply_only_when_both_succeed svc d req st text audio :
  fst (Server.run (chat svc req) d) = Ok (mkResponse st (JsonReply text audio)) ->
  st = 200%N
  /\ exists t brain rest history others B,
       serving d t
       /\ where_unique_id (prospectId req) t = brain :: rest
       /\ chatHistory req = Some history
       /\ openrouter svc
            (mkMessage (js "system") (system_prompt brain)
               :: history ++ [mkMessage (js "user") (userMessage req)])
          = Ok (text :: others)
       /\ elevenlabs svc text = Ok B
       /\ audio = js "data:audio/mpeg;base64," ++ base64 B.
Proof.
  chat_by_cases svc d req; cbn [fst]; intros H; try discriminate H.
  injection H as <- <- <-. split; [reflexivity|].
  exists t, brain, rest, history, others0, B0. repeat split; auto; apply Hd.
Qed.

Lemma reply_only_when_both_succeed_witness :
  200%N = 200%N
  /\ exists t brain rest history others B,
       serving Scenario.store t
       /\ where_unique_id (prospectId Scenario.hi) t = brain :: rest
       /\ chatHistory Scenario.hi = Some history
       /\ openrouter Scenario.answering
            (mkMessage (js "system") (system_prompt brain)
               :: history ++ [mkMessage (js "user") (userMessage Scenario.hi)])
          = Ok (js "Hello!" :: others)
       /\ elevenlabs Scenario.answering (js "Hello!") = Ok B
       /\ js "data:audio/mpeg;base64,WFk="
          = js "data:audio/mpeg;base64," ++ base64 B.
Proof.
  apply (reply_only_when_both_succeed Scenario.answering Scenario.store
           Scenario.hi 200 (js "Hello!") (js "data:audio/mpeg;base64,WFk=")).
  reflexivity.
Defined.

(** X6. When OpenRouter fails, or answers with no choice at all, the turn
    ends in the generic 500 and ElevenLabs is never called. *)
Theorem generation_failure_skips_synthesis svc d t req brain rest history :
  serving d t ->
  truthy (prospectId req) = true ->
  where_unique_id (prospectId req) t = brain :: rest ->
  chatHistory req = Some history ->
  let messages :=
    mkMessage (js "system") (system_prompt brain)
      :: history ++ [mkMessage (js "user") (userMessage req)] in
  (forall text others, openrouter svc messages <> Ok (text :: others)) ->
  let r := Server.run (chat svc req) d in
  fst r = Ok (mkResponse 500 (JsonError (js "Failed to get AI response")))
  /\ external_calls (calls_of r) = [PostOpenRouter messages].
Proof.
  intros Hd Hid Hrows Hh messages Hfail r. subst r.
  pose proof (ServerFacts.chat_found svc d t req brain rest history
                Hd Hid Hrows Hh) as H.
  cbv zeta in H. fold messages in H. rewrite H.
  destruct (openrouter svc messages) as [[|text others]|e].
  - split; reflexivity.
  - now destruct (Hfail text others).
  - split; reflexivity.
Qed.

Lemma generation_failure_skips_synthesis_witness :
  let r := Server.run (chat Cases.silent Scenario.hi) Scenario.store in
  fst r = Ok (mkResponse 500 (JsonError (js "Failed to get AI response")))
  /\ external_calls (calls_of r)
     = [PostOpenRouter [mkMessage (js "system") (js "You sell widgets.");
                        mkMessage (js "user") (js "hi")]].
Proof.
  apply (generation_failure_skips_synthesis Cases.silent Scenario.store
           Scenario.widgets_table Scenario.hi Scenario.widgets [] []).
  - split; reflexivity.
  - reflexivity.
  - reflexivity.
  - reflexivity.
  - intros text others. discriminate.
Defined.

(** *** The admin gate *)

Lemma strict_neq_false (a : jsstring) (b : option jsstring) :
  strict_neq a b = false <-> b = Some a.
Proof.
  unfold strict_neq. destruct b as [s|]; [|split; discriminate].
  rewrite negb_false_iff, jsstring_eqb_eq. split; congruence.
Qed.

Lemma checkAuth_refuses env credentials (next : M Response) :
  (forall c, credentials = Some c -> ~ authorized env c) ->
  checkAuth env credentials next
  = ret (mkResponse 401 (Send (js "Access denied"))).
Proof.
  intros H. unfold checkAuth. destruct credentials as [c|]; [|reflexivity].
  destruct (strict_neq (cred_name c) (ADMIN_USERNAME env)) eqn:En;
    [reflexivity|].
  destruct (strict_neq (cred_pass c) (ADMIN_PASSWORD env)) eqn:Ep;
    [reflexivity|].
  exfalso. apply (H c eq_refl). split; now apply strict_neq_false.
Qed.

Lemma checkAuth_cases env credentials (next : M Response) :
  checkAuth env credentials next = next
  \/ checkAuth env credentials next
     = ret (mkResponse 401 (Send (js "Access denied"))).
Proof.
  unfold checkAuth. destruct credentials as [c|]; [|now right].
  destruct (_ || _); [now right | now left].
Qed.

(** X7. Without credentials, with credentials that differ from the
    configured ones, or with [ADMIN_USERNAME] or [ADMIN_PASSWORD] unset, both
    admin routes answer 401 "Access denied": the store is not queried and
    nothing is inserted. *)
Theorem unauthorized_admin_is_refused env credentials baseUrl n p u d :
  (forall c, credentials = Some c -> ~ authorized env c) ->
  Server.run (admin env credentials baseUrl) d
  = (Ok (mkResponse 401 (Send (js "Access denied"))), mkWorld d [])
  /\ Server.run (admin_create env credentials n p u) d
     = (Ok (mkResponse 401 (Send (js "Access denied"))), mkWorld d []).
Proof.
  intros H. unfold Server.run, admin, admin_create.
  rewrite !(checkAuth_refuses env credentials _ H). split; reflexivity.
Qed.

Lemma intruder_unauthorized :
  forall c, Cases.intruder = Some c -> ~ authorized Scenario.env c.
Proof.
  intros c E. injection E as <-. intros [_ H]. discriminate H.
Defined.

Lemma unauthorized_admin_is_refused_witness :
  Server.run (admin Scenario.env Cases.intruder (js "http://localhost:3001"))
    Scenario.store
  = (Ok (mkResponse 401 (Send (js "Access denied"))), mkWorld Scenario.store [])
  /\ Server.run
       (admin_create Scenario.env Cases.intruder (Some (js "Mallory"))
          (Some (js "x")) (js "0b5c1d0e-0000-4000-8000-00000000000f"))
       Scenario.store
     = (Ok (mkResponse 401 (Send (js "Access denied"))), mkWorld Scenario.store []).
Proof.
  exact (unauthorized_admin_is_refused Scenario.env Cases.intruder
           (js "http://localhost:3001") (Some (js "Mallory")) (Some (js "x"))
           (js "0b5c1d0e-0000-4000-8000-00000000000f") Scenario.store
           intruder_unauthorized).
Defined.

(** *** Creating a prospect *)

Lemma existsb_unique_id (u : jsstring) (l : list Row) :
  existsb (fun r => jsstring_eqb (unique_id r) u) l = true
  <-> In u (map unique_id l).
Proof.
  rewrite existsb_exists, in_map_iff. split.
  - intros (r & Hr & E). apply jsstring_eqb_eq in E. now exists r.
  - intros (r & E & Hr). exists r. split; [exact Hr | now apply jsstring_eqb_eq].
Qed.

(** The body of the create route on a store that answers: one row more
    when the post is acceptable, the rows as they were otherwise. *)
Lemma create_body_run n p u d t tr :
  serving d t ->
  let body :=
    try_catch
      (insert_prospect n p u ;;;
       ret (mkResponse 302 (Redirect (js "/admin"))))
      (fun _ => ret (mkResponse 500 (Send (js "Error creating prospect")))) in
  (acceptable t n p u ->
   exists n' p',
     n = Some n' /\ p = Some p'
     /\ body (mkWorld d tr)
        = (Ok (mkResponse 302 (Redirect (js "/admin"))),
           mkWorld
             (mkDatabase (online d)
                (Some (mkTable
                         (rows t
                          ++ [mkRow (id_seq t) (toWellFormed n')
                                (toWellFormed p') u])
                         (N.succ (id_seq t)))))
             (tr ++ [InsertProspect n p u])))
  /\ (~ acceptable t n p u ->
      exists t',
        body (mkWorld d tr)
        = (Ok (mkResponse 500 (Send (js "Error creating prospect"))),
           mkWorld (mkDatabase (online d) (Some t'))
             (tr ++ [InsertProspect n p u]))
        /\ rows t' = rows t
        /\ (id_seq t' = id_seq t \/ id_seq t' = N.succ (id_seq t))).
Proof.
  intros [Hon Ht] body. subst body.
  destruct d as [o pr]. cbn [online prospects] in Hon, Ht. subst o pr.
  cbv beta iota delta
    [try_catch bind ret throw emit get_db put_db insert_prospect with_table];
    cbn [db trace online prospects].
  unfold acceptable.
  destruct (bindable n) eqn:Bn; cbn [andb negb].
  2:{ split; [intros (_ & _ & H & _); discriminate H|].
      intros _. exists t. destruct t; cbn; auto. }
  destruct (bindable p) eqn:Bp; cbn [andb negb].
  2:{ split; [intros (_ & _ & _ & H & _); discriminate H|].
      intros _. exists t. destruct t; cbn; auto. }
  destruct (storable u) eqn:Bu; cbn [andb negb].
  2:{ split; [intros (_ & _ & _ & _ & H & _); discriminate H|].
      intros _. exists t. destruct t; cbn; auto. }
  destruct (N.leb_spec (id_seq t) int4_max) as [Hcap|Hcap]; cbn [negb].
  2:{ split; [intros (_ & _ & _ & _ & _ & H & _); lia|].
      intros _. exists t. destruct t; cbn; auto. }
  destruct n as [n'|], p as [p'|];
    try (split; [intros (Hn & Hp & _); congruence|];
         intros _; eexists; split; [reflexivity|]; cbn; auto).
  destruct (existsb _ (rows t)) eqn:E.
  - apply existsb_unique_id in E.
    split; [intros (_ & _ & _ & _ & _ & _ & H); contradiction|].
    intros _. eexists. split; [reflexivity|]. cbn. auto.
  - split.
    + intros _. exists n', p'. repeat split.
    + intros H. exfalso. apply H. repeat split; try discriminate; auto.
      intros Hin. apply existsb_unique_id in Hin. congruence.
Qed.


Lemma bolt_is_acceptable :
  acceptable Scenario.widgets_table (Some (js "Bolt"))
    (Some (js "You sell bolts.")) (js "0b5c1d0e-0000-4000-8000-000000000002").
Proof.
  repeat split; try discriminate.
  intros [H|[]]. discriminate H.
Defined.



(** X9. When the store cannot answer (the server is unreachable, or the
    table was never created), every route that needs it answers 500: the
    landing page and the dashboard "Server error", the form post "Error
    creating prospect", the chat turn "Failed to get AI response" without
    calling either service; and the database is left as it was. *)
Theorem storage_failure_is_500 env svc c baseUrl n p u req d :
  unavailable d ->
  authorized env c ->
  truthy (prospectId req) = true ->
  Server.run (landing (prospectId req)) d
  = (Ok (mkResponse 500 (Send (js "Server error"))),
     mkWorld d [SelectByUniqueId (prospectId req)])
  /\ Server.run (admin env (Some c) baseUrl) d
     = (Ok (mkResponse 500 (Send (js "Server error"))), mkWorld d [SelectAll])
  /\ Server.run (admin_create env (Some c) n p u) d
     = (Ok (mkResponse 500 (Send (js "Error creating prospect"))),
        mkWorld d [InsertProspect n p u])
  /\ Server.run (chat svc req) d
     = (Ok (mkResponse 500 (JsonError (js "Failed to get AI response"))),
        mkWorld d [SelectByUniqueId (prospectId req)]).
Proof.
  intros Hd Hauth Hid.
  assert (Htable : forall tr, with_table (mkWorld d tr)
                              = (Throw DbError, mkWorld d tr)).
  { intros tr. unfold with_table, bind, get_db, throw. cbn [db].
    destruct Hd as [-> | ->]; [reflexivity|]. now destruct (online d). }
  split; [|split; [|split]].
  - unfold Server.run, landing. rewrite Hid. cbn [negb].
    unfold try_catch, select_by_unique_id, bind at 1 2, emit.
    cbn [db trace app]. unfold bind. now rewrite Htable.
  - unfold Server.run, admin.
    rewrite (StoreFacts.checkAuth_authorized env c Hauth).
    unfold try_catch, select_all_desc, bind at 1 2, emit.
    cbn [db trace app]. unfold bind. now rewrite Htable.
  - unfold Server.run, admin_create.
    rewrite (StoreFacts.checkAuth_authorized env c Hauth).
    unfold try_catch, insert_prospect, bind at 1 2, emit.
    cbn [db trace app]. unfold bind at 1. now rewrite Htable.
  - now apply chat_unavailable.
Qed.

Lemma storage_failure_is_500_witness :
  Server.run (landing (Some (js "p-123"))) Cases.offline
  = (Ok (mkResponse 500 (Send (js "Server error"))),
     mkWorld Cases.offline [SelectByUniqueId (Some (js "p-123"))])
  /\ Server.run (admin Scenario.env (Some Cases.admin_user) (js "http://h"))
       Cases.offline
     = (Ok (mkResponse 500 (Send (js "Server error"))),
        mkWorld Cases.offline [SelectAll])
  /\ Server.run
       (admin_create Scenario.env (Some Cases.admin_user) (Some (js "Bolt"))
          (Some (js "b")) (js "u-2")) Cases.offline
     = (Ok (mkResponse 500 (Send (js "Error creating prospect"))),
        mkWorld Cases.offline
          [InsertProspect (Some (js "Bolt")) (Some (js "b")) (js "u-2")])
  /\ Server.run (chat Scenario.answering Scenario.hi) Cases.offline
     = (Ok (mkResponse 500 (JsonError (js "Failed to get AI response"))),
        mkWorld Cases.offline [SelectByUniqueId (Some (js "p-123"))]).
Proof.
  apply (storage_failure_is_500 Scenario.env Scenario.answering
           Cases.admin_user (js "http://h") (Some (js "Bolt")) (Some (js "b"))
           (js "u-2") Scenario.hi Cases.offline).
  - left. reflexivity.
  - split; reflexivity.
  - reflexivity.
Defined.

(** *** The table across a whole session *)

Lemma acceptable_dec t n p u : acceptable t n p u \/ ~ acceptable t n p u.
Proof.
  unfold acceptable. destruct n as [n'|]; [|right; intros (H & _); congruence].
  destruct p as [p'|]; [|right; intros (_ & H & _); congruence].
  destruct (bindable (Some n')) eqn:Bn;
    [|right; intros (_ & _ & H & _); discriminate H].
  destruct (bindable (Some p')) eqn:Bp;
    [|right; intros (_ & _ & _ & H & _); discriminate H].
  destruct (storable u) eqn:Bu;
    [|right; intros (_ & _ & _ & _ & H & _); discriminate H].
  destruct (N.leb_spec (id_seq t) int4_max) as [Hcap|Hcap];
    [|right; intros (_ & _ & _ & _ & _ & H & _); lia].
  destruct (existsb (fun r => jsstring_eqb (unique_id r) u) (rows t)) eqn:E.
  - right. intros (_ & _ & _ & _ & _ & _ & H). apply H.
    now apply existsb_unique_id.
  - left. repeat split; try discriminate; auto.
    intros H. apply existsb_unique_id in H. congruence.
Qed.

(** The identifier constraint survives a new row with a fresh identifier
    that holds no U+0000. *)
Lemma unique_ids_snoc t r s :
  unique_ids t -> storable (unique_id r) = true ->
  ~ In (unique_id r) (map unique_id (rows t)) ->
  unique_ids (mkTable (rows t ++ [r]) s).
Proof.
  intros [Hnd Hst] Hr Hnew. unfold unique_ids. cbn [rows]. rewrite map_app.
  split.
  - apply NoDup_app; [exact Hnd | repeat constructor; intros [] |].
    cbn [map]. intros a Ha [<-|[]]. contradiction.
  - apply Forall_app. split; [exact Hst|]. repeat constructor. exact Hr.
Qed.

Lemma extends_refl t : extends t t.
Proof. exists []. now rewrite app_nil_r. Qed.

Lemma extends_trans t1 t2 t3 : extends t1 t2 -> extends t2 t3 -> extends t1 t3.
Proof.
  intros [a Ha] [b Hb]. exists (a ++ b). now rewrite Hb, Ha, app_assoc.
Qed.

(** A handler that answers and does not write, on a store that answers. *)
Lemma quiet_step (m : M Response) d t tr :
  answers m -> read_only m -> serving d t ->
  exists r tr',
    m (mkWorld d tr) = (Ok r, mkWorld (mkDatabase (online d) (Some t)) tr').
Proof.
  intros Ha Hr [Hon Ht]. specialize (Ha (mkWorld d tr)).
  specialize (Hr (mkWorld d tr)). destruct Ha as [r Ha].
  destruct (m (mkWorld d tr)) as [o [d' tr']]. cbn [fst snd db] in *.
  subst o d'. exists r, tr'. destruct d as [o pr]. cbn in *. now subst.
Qed.

Lemma handle_step env svc req d t tr :
  serving d t -> well_sequenced t -> unique_ids t ->
  exists r t' tr',
    handle env svc req (mkWorld d tr)
    = (Ok r, mkWorld (mkDatabase (online d) (Some t')) tr')
    /\ well_sequenced t' /\ unique_ids t' /\ extends t t'.
Proof.
  intros Hd Hwf Hu.
  assert (Hquiet : forall m, answers m -> read_only m ->
            exists r t' tr',
              m (mkWorld d tr)
              = (Ok r, mkWorld (mkDatabase (online d) (Some t')) tr')
              /\ well_sequenced t' /\ unique_ids t' /\ extends t t').
  { intros m Ha Hr. destruct (quiet_step m d t tr Ha Hr Hd) as (r & tr' & E).
    exists r, t, tr'.
    split; [exact E|]. split; [exact Hwf|]. split; [exact Hu|].
    apply extends_refl. }
  destruct req as [pid|c b|c n p u|body].
  - apply Hquiet; [apply (every_request_is_answered env svc (GetLanding pid))|].
    apply read_only_landing.
  - apply Hquiet; [apply (every_request_is_answered env svc (GetAdmin c b))|].
    apply read_only_admin.
  - cbn [handle]. unfold admin_create.
    destruct (checkAuth_cases env c
                (try_catch
                   (insert_prospect n p u ;;;
                    ret (mkResponse 302 (Redirect (js "/admin"))))
                   (fun _ => ret (mkResponse 500
                                    (Send (js "Error creating prospect"))))))
      as [-> | ->].
    + destruct (create_body_run n p u d t tr Hd) as [Hyes Hno].
      destruct (acceptable_dec t n p u) as [Ha|Ha].
      * destruct (Hyes Ha) as (n' & p' & _ & _ & ->).
        destruct Ha as (_ & _ & _ & _ & Hst & _ & Hnew).
        do 3 eexists. split; [reflexivity|]. split; [|split].
        -- unfold well_sequenced in *. cbn [rows id_seq].
           apply (StoreFacts.ascending_snoc _ _ (id_seq t));
             [exact Hwf | cbn [id]; lia].
        -- now apply unique_ids_snoc.
        -- eexists. reflexivity.
      * destruct (Hno Ha) as (t' & -> & Hrows & Hseq).
        do 3 eexists. split; [reflexivity|].
        split; [|split].
        -- unfold well_sequenced in *. rewrite Hrows.
           apply (StoreFacts.ascending_weaken _ _ (id_seq t)); [exact Hwf|].
           destruct Hseq as [-> | ->]; lia.
        -- unfold unique_ids in *. now rewrite Hrows.
        -- exists []. now rewrite Hrows, app_nil_r.
    + exists (mkResponse 401 (Send (js "Access denied"))), t, tr.
      destruct Hd as [Hon Ht]. destruct d as [o pr]. cbn in *. subst.
      split; [reflexivity|]. split; [exact Hwf|]. split; [exact Hu|].
      apply extends_refl.
  - apply Hquiet; [apply (every_request_is_answered env svc (PostChat body))|].
    apply read_only_chat.
Qed.

Lemma serve_steps env svc reqs : forall d t tr,
  serving d t -> well_sequenced t -> unique_ids t ->
  exists rs t' tr',
    serve env svc reqs (mkWorld d tr)
    = (Ok rs, mkWorld (mkDatabase (online d) (Some t')) tr')
    /\ List.length rs = List.length reqs
    /\ well_sequenced t' /\ unique_ids t' /\ extends t t'.
Proof.
  induction reqs as [|req reqs IH]; intros d t tr Hd Hwf Hu.
  - exists [], t, tr. destruct Hd as [Hon Ht]. destruct d as [o pr].
    cbn in *. subst.
    split; [reflexivity|]. split; [reflexivity|]. split; [exact Hwf|].
    split; [exact Hu | apply extends_refl].
  - destruct (handle_step env svc req d t tr Hd Hwf Hu)
      as (r & t1 & tr1 & E1 & Hwf1 & Hu1 & Hx1).
    assert (Hd1 : serving (mkDatabase (online d) (Some t1)) t1).
    { destruct Hd as [Hon _]. split; [exact Hon | reflexivity]. }
    destruct (IH _ t1 tr1 Hd1 Hwf1 Hu1)
      as (rs & t2 & tr2 & E2 & Hlen & Hwf2 & Hu2 & Hx2).
    exists (r :: rs), t2, tr2. split.
    + cbn [serve]. unfold bind at 1. rewrite E1. unfold bind at 1.
      rewrite E2. reflexivity.
    + split; [cbn [List.length]; now rewrite Hlen|].
      split; [exact Hwf2|]. split; [exact Hu2|].
      exact (extends_trans _ _ _ Hx1 Hx2).
Qed.

(** X10. Whatever requests arrive and in whatever order, on a store that
    answers: every request gets its response, the rows present at the start
    stay in place unchanged (nothing is updated, deleted or reordered), the
    sequence numbers keep growing along the table and no two rows ever share
    a [unique_id]. *)
Theorem table_only_grows env svc reqs d t :
  serving d t -> well_sequenced t -> unique_ids t ->
  let r := Server.run (serve env svc reqs) d in
  exists rs t',
    fst r = Ok rs
    /\ List.length rs = List.length reqs
    /\ db (snd r) = mkDatabase (online d) (Some t')
    /\ extends t t' /\ well_sequenced t' /\ unique_ids t'.
Proof.
  intros Hd Hwf Hu r. subst r. unfold Server.run.
  destruct (serve_steps env svc reqs d t [] Hd Hwf Hu)
    as (rs & t' & tr' & -> & Hlen & Hwf' & Hu' & Hx).
  exists rs, t'. cbn [fst snd db]. auto 10.
Qed.

Lemma widgets_table_invariants :
  serving Scenario.store Scenario.widgets_table
  /\ well_sequenced Scenario.widgets_table
  /\ unique_ids Scenario.widgets_table.
Proof.
  split; [split; reflexivity|]. split.
  - cbv. split; discriminate.
  - split; repeat constructor. intros [].
Defined.

Lemma table_only_grows_witness :
  let r := Server.run (serve Scenario.env Scenario.answering Cases.busy_day)
             Scenario.store in
  exists rs t',
    fst r = Ok rs
    /\ List.length rs = List.length Cases.busy_day
    /\ db (snd r) = mkDatabase (online Scenario.store) (Some t')
    /\ extends Scenario.widgets_table t'
    /\ well_sequenced t' /\ unique_ids t'.
Proof.
  destruct widgets_table_invariants as (Hd & Hwf & Hu).
  exact (table_only_grows Scenario.env Scenario.answering Cases.busy_day
           Scenario.store Scenario.widgets_table Hd Hwf Hu).
Defined.

(** *** From the dashboard link to the prospect's page *)

(** Under the UNIQUE constraint, the lookup by a stored identifier returns
    that row and no other. *)
Lemma lookup_unique t r :
  unique_ids t -> In r (rows t) ->
  where_unique_id (Some (unique_id r)) t = [r].
Proof.
  unfold unique_ids, where_unique_id. intros [Hnd Hst] Hin.
  assert (Hr : storable (unique_id r) = true).
  { rewrite Forall_forall in Hst. apply Hst. now apply in_map. }
  rewrite Hr. clear Hst Hr. revert Hnd Hin.
  induction (rows t) as [|x l IH];
    cbn [map filter In]; [intros _ []|].
  intros Hnd Hin. inversion Hnd as [|? ? Hx Hl]; subst.
  assert (Hnone : forall l', ~ In (unique_id x) (map unique_id l') ->
            filter (fun r0 => jsstring_eqb (unique_id r0) (unique_id x)) l' = []).
  { induction l' as [|y l' IH']; cbn [map filter In]; [reflexivity|].
    intros H. rewrite jsstring_eqb_neq by (intros E; apply H; now left).
    apply IH'. intros H'. apply H. now right. }
  destruct Hin as [<-|Hin].
  - rewrite jsstring_eqb_refl. now rewrite Hnone.
  - rewrite jsstring_eqb_neq; [now apply IH|].
    intros E. apply Hx. rewrite E. now apply in_map.
Qed.

Lemma landing_found pid t r rest w :
  serving (db w) t -> truthy pid = true ->
  where_unique_id pid t = r :: rest ->
  landing pid w
  = (Ok (mkResponse 200 (RenderDemo (name r) (unique_id r))),
     mkWorld (db w) (trace w ++ [SelectByUniqueId pid])).
Proof.
  intros [Hon Ht] Hid Hrows. unfold landing. rewrite Hid.
  ServerFacts.step_handler. rewrite Hon, Ht. ServerFacts.step_handler.
  rewrite (ServerFacts.where_unique_id_bindable _ _ _ _ Hrows).
  ServerFacts.step_handler. rewrite Hrows. reflexivity.
Qed.

(** X11. Each link of the dashboard opens the page of its own prospect: on
    a store that answers, for a stored row whose identifier is not empty,
    [GET /?prospect=<unique_id>] renders that row's name with the same
    identifier, and a chat turn under that identifier sends that row's
    prompt as the system message, whatever rows were stored before or
    after it. *)
Theorem link_opens_its_prospect svc d t r userMessage history :
  serving d t -> unique_ids t ->
  In r (rows t) -> unique_id r <> [] ->
  fst (Server.run (landing (Some (unique_id r))) d)
  = Ok (mkResponse 200 (RenderDemo (name r) (unique_id r)))
  /\ llm_payloads
       (calls_of
          (Server.run
             (chat svc (mkChatBody userMessage (Some history)
                          (Some (unique_id r)))) d))
     = [mkMessage (js "system") (system_prompt r)
          :: history ++ [mkMessage (js "user") userMessage]].
Proof.
  intros Hd Hu Hin Hne.
  pose proof (lookup_unique t r Hu Hin) as Hrows.
  assert (Hid : truthy (Some (unique_id r)) = true)
    by (destruct (unique_id r); [contradiction | reflexivity]).
  split.
  - unfold Server.run.
    now rewrite (landing_found (Some (unique_id r)) t r [] (mkWorld d []) Hd Hid Hrows).
  - pose proof (ServerFacts.chat_found svc d t
                  (mkChatBody userMessage (Some history) (Some (unique_id r)))
                  r [] history Hd Hid Hrows eq_refl) as H.
    cbv zeta in H. rewrite H. cbn [Wire.userMessage Wire.prospectId].
    unfold calls_of.
    destruct (openrouter svc _) as [[|text others]|e]; try reflexivity.
    destruct (elevenlabs svc text); reflexivity.
Qed.

Lemma link_opens_its_prospect_witness :
  fst (Server.run (landing (Some (js "p-123"))) Scenario.store)
  = Ok (mkResponse 200 (RenderDemo (js "Widgets Inc") (js "p-123")))
  /\ llm_payloads
       (calls_of
          (Server.run
             (chat Scenario.answering
                (mkChatBody (js "hi") (Some []) (Some (js "p-123"))))
             Scenario.store))
     = [mkMessage (js "system") (js "You sell widgets.")
          :: [] ++ [mkMessage (js "user") (js "hi")]].
Proof.
  destruct widgets_table_invariants as (Hd & _ & Hu).
  apply (link_opens_its_prospect Scenario.answering Scenario.store
           Scenario.widgets_table Scenario.widgets (js "hi") [] Hd Hu).
  - left. reflexivity.
  - discriminate.
Defined.

(** X12. A prospect, once created, stays reachable: after an authorised
    form post that the table accepts (both fields present, no U+0000 in any
    parameter, sequence not exhausted, identifier fresh) with a non-empty
    identifier, and after any further requests whatever, the landing route
    under that identifier renders the name as the store keeps it. *)
Theorem created_prospect_stays_reachable env svc c n p u reqs d t :
  authorized env c ->
  serving d t -> well_sequenced t -> unique_ids t ->
  u <> [] -> acceptable t (Some n) (Some p) u ->
  let session :=
    bind (serve env svc
            (PostAdminCreate (Some c) (Some n) (Some p) u :: reqs))
         (fun _ => landing (Some u)) in
  fst (Server.run session d)
  = Ok (mkResponse 200 (RenderDemo (toWellFormed n) u)).
Proof.
  intros Hauth Hd Hwf Hu Hne Hacc session. subst session.
  unfold Server.run. cbn [serve handle]. unfold admin_create.
  rewrite (StoreFacts.checkAuth_authorized env c Hauth).
  destruct (create_body_run (Some n) (Some p) u d t [] Hd) as [Hyes _].
  destruct (Hyes Hacc) as (n' & p' & En & Ep & Hrun).
  injection En as <-. injection Ep as <-.
  destruct Hacc as (_ & _ & _ & _ & Hst & _ & Hnew).
  unfold bind at 1 2. rewrite Hrun. clear Hrun.
  set (row := mkRow (id_seq t) (toWellFormed n) (toWellFormed p) u).
  set (t1 := mkTable (rows t ++ [row]) (N.succ (id_seq t))).
  assert (Hd1 : serving (mkDatabase (online d) (Some t1)) t1).
  { destruct Hd as [Hon _]. split; [exact Hon | reflexivity]. }
  assert (Hwf1 : well_sequenced t1).
  { unfold well_sequenced in *. cbn [rows id_seq t1].
    apply (StoreFacts.ascending_snoc _ _ (id_seq t)); [exact Hwf | cbn; lia]. }
  assert (Hu1 : unique_ids t1) by (now apply unique_ids_snoc).
  destruct (serve_steps env svc reqs _ t1 ([] ++ [InsertProspect (Some n) (Some p) u])
              Hd1 Hwf1 Hu1)
    as (rs & t2 & tr2 & E2 & _ & _ & Hu2 & [added Hx]).
  unfold bind at 1. rewrite E2. unfold ret, bind.
  assert (Hin : In row (rows t2)).
  { rewrite Hx. cbn [rows t1]. apply in_or_app. left.
    apply in_or_app. right. now left. }
  pose proof (lookup_unique t2 row Hu2 Hin) as Hrows. cbn [unique_id row] in Hrows.
  assert (Hid : truthy (Some u) = true)
    by (destruct u; [contradiction | reflexivity]).
  cbn [online] in E2 |- *.
  assert (Hd2 : serving (mkDatabase (online d) (Some t2)) t2).
  { destruct Hd as [Hon _]. split; [exact Hon | reflexivity]. }
  rewrite (landing_found (Some u) t2 row []
             (mkWorld (mkDatabase (online d) (Some t2)) tr2) Hd2 Hid Hrows).
  reflexivity.
Qed.

Lemma created_prospect_stays_reachable_witness :
  fst (Server.run
         (bind (serve Scenario.env Scenario.answering
                  (PostAdminCreate (Some Cases.admin_user) (Some (js "Bolt"))
                     (Some (js "You sell bolts."))
                     (js "0b5c1d0e-0000-4000-8000-000000000002")
                   :: Cases.busy_day))
               (fun _ => landing (Some (js "0b5c1d0e-0000-4000-8000-000000000002"))))
         Scenario.store)
  = Ok (mkResponse 200
          (RenderDemo (toWellFormed (js "Bolt"))
             (js "0b5c1d0e-0000-4000-8000-000000000002"))).
Proof.
  destruct widgets_table_invariants as (Hd & Hwf & Hu).
  apply (created_prospect_stays_reachable Scenario.env Scenario.answering
           Cases.admin_user (js "Bolt") (js "You sell bolts.")
           (js "0b5c1d0e-0000-4000-8000-000000000002") Cases.busy_day
           Scenario.store Scenario.widgets_table).
  - split; reflexivity.
  - exact Hd.
  - exact Hwf.
  - exact Hu.
  - discriminate.
  - exact bolt_is_acceptable.
Defined.

(** *** Start-up *)

(** X13. The start-up callback never fails and never touches a table that
    exists: with [DATABASE_URL] unset nothing is done; with it set, a table
    already there keeps its rows and its sequence, a missing table on a
    reachable server is created empty, and an unreachable server leaves
    everything as it was, the rejection being swallowed. *)
Theorem listen_keeps_the_table url d :
  let r := Server.run (listen url) d in
  fst r = Ok tt
  /\ (forall t, prospects d = Some t -> db (snd r) = d)
  /\ (truthy url = false \/ online d = false -> db (snd r) = d)
  /\ (truthy url = true -> online d = true -> prospects d = None ->
      db (snd r) = mkDatabase true (Some empty_table)).
Proof.
  cbv zeta. unfold Server.run, listen, calls_of.
  destruct (truthy url); [|repeat split; intros; congruence].
  unfold initializeDatabase, try_catch, bind, get_db, put_db, ret, throw.
  cbn [db trace]. destruct d as [o pr]. cbn [online prospects].
  destruct o, pr as [t|]; cbn [fst snd db trace]; repeat split;
    intros; try reflexivity; try congruence; destruct H; congruence.
Qed.

End RouteFacts.

(* ===================================================================== *)
(** ** What the widget shows and sends, over any run of the page *)
(* ===================================================================== *)

Module PageFacts.

Import Widget Page JSFacts TextFacts.

Lemma begin_state (s : State) (c : N) (u : jsstring) :
  trim (chatInput_value s) = c :: u ->
  let userMessage := c :: u in
  let n := next_node s in
  let history := chatHistory s ++ [Wire.mkMessage (js "user") userMessage] in
  sendMessage_begin s
  = Some (S n,
          mkState (prospectId s) history (currentAudio s) []
            (chatMessages s
               ++ [visitor_bubble n userMessage;
                   mkElement (S n) (js "...")
                     [js "message"; js "ai-message"; js "loading"] None])
            (S (S n)) (audios s) (pending s ++ [S n])
            (outbox s
               ++ [Wire.mkChatBody userMessage (Some history) (prospectId s)])).
Proof.
  intros E. unfold sendMessage_begin. rewrite E. cbv zeta.
  cbn [truthy negb addMessageToUI]. unfold fetch_chat, push, set_input.
  cbn. rewrite <- app_assoc. reflexivity.
Qed.

Lemma filter_twice {A} (f : A -> bool) (l : list A) :
  filter f (filter f l) = filter f l.
Proof. apply forallb_filter_id, forallb_filter. Qed.

Lemma not_child_filter (l : nat) (s : State) :
  is_child l s = false -> filter (fun e => negb (Nat.eqb (node e) l)) (chatMessages s) = chatMessages s.
Proof.
  unfold is_child. induction (chatMessages s) as [|e cm IH]; cbn [existsb filter];
    [reflexivity|].
  intros H. apply orb_false_elim in H as [He Hcm]. rewrite He. cbn [negb].
  now rewrite IH.
Qed.

Lemma catch_state (l : nat) (s : State) :
  sendMessage_catch l s
  = mkState (prospectId s) (chatHistory s) (currentAudio s) (chatInput_value s)
      (filter (fun e => negb (Nat.eqb (node e) l)) (chatMessages s) ++ [apology_bubble (next_node s)])
      (S (next_node s)) (audios s) (pending s) (outbox s).
Proof.
  unfold sendMessage_catch. destruct (is_child l s) eqn:E.
  - reflexivity.
  - cbn [addMessageToUI snd]. rewrite (not_child_filter l s E). reflexivity.
Qed.

(** [playAudio] touches the audio objects and nothing else. *)
Lemma playAudio_frame (audioData : jsstring) (s : State) :
  let s' := playAudio audioData s in
  prospectId s' = prospectId s /\ chatHistory s' = chatHistory s
  /\ chatInput_value s' = chatInput_value s
  /\ chatMessages s' = chatMessages s /\ next_node s' = next_node s
  /\ pending s' = pending s /\ outbox s' = outbox s.
Proof.
  unfold playAudio, play_current, new_Audio, pause_current.
  destruct (currentAudio s); repeat split.
Qed.

(** The state after a pending fetch settles, for a placeholder that is on
    screen: the placeholder goes, the answer comes below, and only a
    successful reply extends the transcript. *)
Lemma resume_state (l : nat) (r : fetch_result) (s : State) :
  is_child l s = true ->
  let s' := sendMessage_resume l r s in
  chatMessages s'
  = filter (fun e => negb (Nat.eqb (node e) l)) (chatMessages s) ++ [answer_bubble (next_node s) r]
  /\ next_node s' = S (next_node s)
  /\ pending s' = filter (fun n => negb (Nat.eqb n l)) (pending s)
  /\ chatHistory s'
     = chatHistory s
       ++ match r with
          | Resolved true (Some (textResponse, _)) =>
              [Wire.mkMessage (js "assistant") textResponse]
          | _ => []
          end
  /\ outbox s' = outbox s /\ prospectId s' = prospectId s
  /\ chatInput_value s' = chatInput_value s.
Proof.
  intros Hchild. unfold sendMessage_resume.
  assert (Hc : is_child l (settled l s) = true) by exact Hchild.
  destruct r as [|ok [[text audio]|]].
  - rewrite catch_state. cbn. rewrite app_nil_r. repeat split.
  - rewrite Hc. cbn [negb]. destruct ok; cbn [negb].
    + cbn [addMessageToUI].
      match goal with
      | |- context [playAudio ?a ?x] =>
          destruct (playAudio_frame a x) as (-> & -> & -> & -> & -> & -> & ->)
      end.
      repeat split.
    + rewrite catch_state. cbn. rewrite filter_twice, app_nil_r. repeat split.
  - rewrite Hc. cbn [negb].
    destruct ok; cbn [negb]; rewrite catch_state; cbn;
      rewrite filter_twice, app_nil_r; repeat split.
Qed.

(** *** The invariant of the page *)

Lemma page_invariant_ext pid (s s' : State) :
  prospectId s' = prospectId s -> chatHistory s' = chatHistory s ->
  outbox s' = outbox s -> chatMessages s' = chatMessages s ->
  pending s' = pending s -> next_node s' = next_node s ->
  page_invariant pid s -> page_invariant pid s'.
Proof.
  unfold page_invariant, placeholders, fresh_nodes.
  now intros -> -> -> -> -> ->.
Qed.

Lemma page_invariant_init pid : page_invariant pid (init pid).
Proof.
  unfold page_invariant, fresh_nodes. cbn.
  repeat split; constructor.
Qed.

Lemma prefix_refl {A} (l : list A) : prefix l l.
Proof. exists []. now rewrite app_nil_r. Qed.

Lemma prefix_app {A} (l l' more : list A) : prefix l l' -> prefix l (l' ++ more).
Proof. intros [m ->]. exists (m ++ more). now rewrite app_assoc. Qed.

Lemma placeholders_remove (l : nat) (cm : list Element) :
  map node (filter is_loading (filter (fun e => negb (Nat.eqb (node e) l)) cm))
  = filter (fun n => negb (Nat.eqb n l)) (map node (filter is_loading cm)).
Proof.
  induction cm as [|e cm IH]; [reflexivity|]. cbn [filter].
  destruct (Nat.eqb (node e) l) eqn:En, (is_loading e) eqn:El;
    cbn [negb filter map]; rewrite ?El, ?En; cbn [negb map]; now rewrite IH.
Qed.

Lemma placeholder_is_child (l : nat) (s : State) :
  In l (placeholders s) -> is_child l s = true.
Proof.
  unfold placeholders, is_child. rewrite in_map_iff.
  intros (e & <- & He). apply filter_In in He as [He _].
  apply existsb_exists. exists e. split; [exact He | apply Nat.eqb_refl].
Qed.

Lemma answer_bubble_plain (n : nat) (r : fetch_result) :
  is_loading (answer_bubble n r) = false /\ node (answer_bubble n r) = n.
Proof. destruct r as [|[] [[text audio]|]]; split; reflexivity. Qed.

Lemma trimmed_text_trim (v : jsstring) (c : N) (u : jsstring) :
  trim v = c :: u -> trimmed_text (c :: u).
Proof.
  intros E. split; [discriminate|]. rewrite <- E. apply trim_idempotent.
Qed.

Lemma page_invariant_begin pid (s : State) (l : nat) (s' : State) :
  sendMessage_begin s = Some (l, s') ->
  page_invariant pid s -> page_invariant pid s'.
Proof.
  intros Hb (Hpid & Hh & Ho & Hp & Hl & Hcm & Hpend).
  destruct (trim (chatInput_value s)) as [|c u] eqn:E.
  { unfold sendMessage_begin in Hb. rewrite E in Hb. discriminate Hb. }
  rewrite (begin_state s c u E) in Hb. cbv zeta in Hb.
  injection Hb as <- <-.
  pose proof (trimmed_text_trim _ c u E) as Ht.
  assert (Hm : widget_entry (Wire.mkMessage (js "user") (c :: u)))
    by (left; split; [reflexivity | exact Ht]).
  unfold page_invariant, placeholders, fresh_nodes.
  cbn [prospectId chatHistory outbox chatMessages pending next_node].
  split; [exact Hpid|]. split; [apply Forall_app; split; [exact Hh | now constructor]|].
  split.
  { apply Forall_app. split; [exact Ho|]. constructor; [|constructor].
    split; [exact Ht|]. split; [exact Hpid|]. now exists (chatHistory s). }
  split.
  { apply Forall_app. split.
    - eapply Forall_impl; [|exact Hp]. cbn. intros b (h & Eh & Hpre).
      exists h. split; [exact Eh | now apply prefix_app].
    - constructor; [|constructor]. eexists. split; [reflexivity | apply prefix_refl]. }
  split.
  { rewrite filter_app, map_app. unfold placeholders in Hl. rewrite Hl.
    reflexivity. }
  split.
  - apply Forall_app. split.
    + eapply Forall_impl; [|exact Hcm]. cbn. intros; lia.
    + repeat constructor; cbn; lia.
  - apply Forall_app. split.
    + eapply Forall_impl; [|exact Hpend]. cbn. intros; lia.
    + repeat constructor.
Qed.

Lemma Forall_filter {A} (P : A -> Prop) (f : A -> bool) (l : list A) :
  Forall P l -> Forall P (filter f l).
Proof.
  induction 1 as [|x l Hx _ IH]; cbn [filter]; [constructor|].
  destruct (f x); [now constructor | exact IH].
Qed.

Lemma page_invariant_resume pid (l : nat) (r : fetch_result) (s : State) :
  In l (pending s) ->
  page_invariant pid s -> page_invariant pid (sendMessage_resume l r s).
Proof.
  intros Hin (Hpid & Hh & Ho & Hp & Hl & Hcm & Hpend).
  assert (Hchild : is_child l s = true)
    by (apply placeholder_is_child; now rewrite Hl).
  destruct (resume_state l r s Hchild) as (Ecm & En & Ep & Eh & Eo & Epid & _).
  destruct (answer_bubble_plain (next_node s) r) as [Hplain Hnode].
  unfold page_invariant, placeholders, fresh_nodes.
  rewrite Ecm, En, Ep, Eh, Eo, Epid.
  split; [exact Hpid|]. split.
  { apply Forall_app. split; [exact Hh|].
    destruct r as [|[] [[text audio]|]]; try apply Forall_nil.
    apply Forall_cons; [now right | apply Forall_nil]. }
  split; [exact Ho|]. split.
  { eapply Forall_impl; [|exact Hp]. cbn. intros b (h & E & Hpre).
    exists h. split; [exact E | now apply prefix_app]. }
  split.
  { rewrite filter_app, map_app. cbn [filter]. rewrite Hplain. cbn [map].
    rewrite app_nil_r, placeholders_remove. unfold placeholders in Hl.
    now rewrite Hl. }
  split.
  - apply Forall_app. split.
    + apply Forall_filter. eapply Forall_impl; [|exact Hcm]. cbn. intros; lia.
    + constructor; [rewrite Hnode; lia | constructor].
  - apply Forall_filter. eapply Forall_impl; [|exact Hpend]. cbn. intros; lia.
Qed.

Lemma page_invariant_step pid (i : input) (s : State) :
  page_invariant pid s -> page_invariant pid (step i s).
Proof.
  intros H. destruct i as [text| |l r|n|h]; cbn [step].
  - exact (page_invariant_ext pid s _ eq_refl eq_refl eq_refl eq_refl eq_refl
             eq_refl H).
  - destruct (sendMessage_begin s) as [[l s']|] eqn:E; [|exact H].
    exact (page_invariant_begin pid s l s' E H).
  - destruct (existsb (Nat.eqb l) (pending s)) eqn:E; [|exact H].
    apply page_invariant_resume; [|exact H].
    apply existsb_exists in E as (x & Hx & Ex).
    apply Nat.eqb_eq in Ex. now subst.
  - destruct (button_of n s) as [a|]; [|exact H].
    destruct (playAudio_frame a s) as (E1 & E2 & _ & E4 & E5 & E6 & E7).
    exact (page_invariant_ext pid s _ E1 E2 E7 E4 E6 E5 H).
  - exact (page_invariant_ext pid s _ eq_refl eq_refl eq_refl eq_refl eq_refl
             eq_refl H).
Qed.

Lemma page_invariant_run pid (inputs : list input) : forall s,
  page_invariant pid s -> page_invariant pid (run inputs s).
Proof.
  induction inputs as [|i inputs IH]; intros s H; [exact H|].
  cbn [run fold_left]. apply IH. now apply page_invariant_step.
Qed.

(** *** What a send does *)

(** X14. [sendMessage] goes past its first test exactly when the input
    holds a code unit that is not white space.  The message it then shows,
    pushes and sends is the input without its leading and trailing white
    space: not empty, unchanged by [trim], with a first and a last code unit
    that are not white space; the request carries the transcript with that
    message already appended, and the input field is emptied. *)
Theorem sends_exactly_non_blank_input (s : State) :
  (sendMessage_begin s = None
   <-> forallb is_white_space (chatInput_value s) = true)
  /\ (forall l s',
        sendMessage_begin s = Some (l, s') ->
        let m := trim (chatInput_value s) in
        m <> [] /\ trim m = m
        /\ (forall c u, m = c :: u -> is_white_space c = false)
        /\ (forall w d, m = w ++ [d] -> is_white_space d = false)
        /\ outbox s'
           = outbox s
             ++ [Wire.mkChatBody m
                   (Some (chatHistory s ++ [Wire.mkMessage (js "user") m]))
                   (prospectId s)]
        /\ chatHistory s' = chatHistory s ++ [Wire.mkMessage (js "user") m]
        /\ chatInput_value s' = []).
Proof.
  split.
  - rewrite <- trim_nil_iff. unfold sendMessage_begin.
    destruct (trim (chatInput_value s)); split; intros H;
      try reflexivity; discriminate H.
  - intros l s' Hb m. subst m.
    destruct (trim (chatInput_value s)) as [|c u] eqn:E.
    { unfold sendMessage_begin in Hb. rewrite E in Hb. discriminate Hb. }
    rewrite (begin_state s c u E) in Hb. cbv zeta in Hb.
    injection Hb as <- <-.
    destruct (trimmed_text_trim _ c u E) as [Hne Hfix].
    split; [exact Hne|]. split; [exact Hfix|].
    split; [intros c' u' H; rewrite <- E in H; exact (trim_first _ _ _ H)|].
    split; [intros w d H; rewrite <- E in H; exact (trim_last _ _ _ H)|].
    repeat split.
Qed.

Lemma filter_fresh (n : nat) (cm : list Element) :
  Forall (fun e => node e < n) cm ->
  filter (fun e => negb (Nat.eqb (node e) (S n))) cm = cm.
Proof.
  induction 1 as [|e cm He _ IH]; cbn [filter]; [reflexivity|].
  destruct (Nat.eqb_spec (node e) (S n)); [lia|]. cbn [negb]. now rewrite IH.
Qed.

Lemma filter_fresh_pending (n : nat) (l : list nat) :
  Forall (fun x => x < n) l ->
  filter (fun x => negb (Nat.eqb x (S n))) l = l.
Proof.
  induction 1 as [|e cm He _ IH]; cbn [filter]; [reflexivity|].
  destruct (Nat.eqb_spec e (S n)); [lia|]. cbn [negb]. now rewrite IH.
Qed.

(** X15. One whole turn on the page, whatever happened before it: below
    what was on screen come the visitor's message and then the reply, or the
    fixed apology when the turn failed; the placeholder is gone; the message
    stays on screen and in the transcript even when the turn failed, and the
    transcript gains the assistant's text only on success. *)
Theorem turn_outcome pid (inputs : list input) (r : fetch_result) :
  let s := run inputs (init pid) in
  trim (chatInput_value s) <> [] ->
  let m := trim (chatInput_value s) in
  let n := next_node s in
  let s' := sendMessage r s in
  chatMessages s'
  = chatMessages s ++ [visitor_bubble n m; answer_bubble (S (S n)) r]
  /\ placeholders s' = placeholders s
  /\ chatHistory s'
     = chatHistory s
       ++ Wire.mkMessage (js "user") m
          :: match r with
             | Resolved true (Some (textResponse, _)) =>
                 [Wire.mkMessage (js "assistant") textResponse]
             | _ => []
             end
  /\ chatInput_value s' = [].
Proof.
  intros s Hne m n s'.
  assert (Hinv : page_invariant pid s)
    by (apply page_invariant_run, page_invariant_init).
  destruct Hinv as (_ & _ & _ & _ & Hl & Hcm & Hpend).
  subst m s'. destruct (trim (chatInput_value s)) as [|c u] eqn:E;
    [contradiction|].
  unfold sendMessage. rewrite (begin_state s c u E). cbv zeta. fold n.
  match goal with
  | |- context [sendMessage_resume (S n) r ?x] => set (s1 := x)
  end.
  assert (Hchild : is_child (S n) s1 = true).
  { unfold is_child, s1. cbn [chatMessages]. rewrite existsb_app.
    cbn [existsb node visitor_bubble]. rewrite Nat.eqb_refl.
    now rewrite !orb_true_r. }
  destruct (resume_state (S n) r s1 Hchild)
    as (Ecm & _ & Ep & Eh & _ & _ & Ei).
  assert (Hgone : filter (fun e => negb (Nat.eqb (node e) (S n))) (chatMessages s1)
                  = chatMessages s ++ [visitor_bubble n (c :: u)]).
  { unfold s1. cbn [chatMessages]. rewrite filter_app.
    rewrite (filter_fresh n _ Hcm). cbn [filter node visitor_bubble].
    rewrite Nat.eqb_refl. cbn [negb].
    destruct (Nat.eqb_spec n (S n)); [lia|]. reflexivity. }
  split.
  { rewrite Ecm, Hgone, <- app_assoc. reflexivity. }
  split.
  { unfold placeholders. rewrite Ecm, Hgone, !filter_app, !map_app.
    cbn [filter]. destruct (answer_bubble_plain (next_node s1) r) as [-> _].
    cbn. now rewrite !app_nil_r. }
  split.
  { rewrite Eh. unfold s1. cbn [chatHistory]. now rewrite <- app_assoc. }
  rewrite Ei. reflexivity.
Qed.

Lemma turn_outcome_witness :
  let s := run [Typed (js " hi ")] (init (Some (js "p-123"))) in
  let s' := sendMessage (Resolved false None) s in
  chatMessages s'
  = chatMessages s ++ [visitor_bubble 0 (js "hi"); answer_bubble 2 (Resolved false None)]
  /\ placeholders s' = placeholders s
  /\ chatHistory s' = chatHistory s ++ Wire.mkMessage (js "user") (js "hi") :: []
  /\ chatInput_value s' = [].
Proof.
  apply (turn_outcome (Some (js "p-123")) [Typed (js " hi ")]
           (Resolved false None)).
  discriminate.
Defined.

(** *** Over any run of the page *)

(** X16. Whatever the visitor does and however the fetches settle, also
    with sends overlapping: every request the widget has issued carries the
    identifier of the page, a visitor message that is trimmed and not empty,
    and a transcript that ends with that very message; the transcript holds
    only user entries with trimmed, non-empty text and assistant entries;
    and it is never cut or reordered, each request's transcript being an
    initial segment of the current one. *)
Theorem requests_carry_the_transcript pid (inputs : list input) :
  let s := run inputs (init pid) in
  prospectId s = pid
  /\ Forall widget_entry (chatHistory s)
  /\ Forall (widget_request pid) (outbox s)
  /\ Forall (fun b => exists h, Wire.chatHistory b = Some h
                               /\ prefix h (chatHistory s)) (outbox s).
Proof.
  intros s.
  destruct (page_invariant_run pid inputs _ (page_invariant_init pid))
    as (H1 & H2 & H3 & H4 & _).
  repeat split; assumption.
Qed.

(** X17. The loading placeholders on screen are exactly those of the
    requests still in flight, in the order they were sent; once every fetch
    has settled, no placeholder is left. *)
Theorem placeholders_are_pending pid (inputs : list input) :
  let s := run inputs (init pid) in
  placeholders s = pending s
  /\ (pending s = [] ->
      Forall (fun e => is_loading e = false) (chatMessages s)).
Proof.
  intros s.
  destruct (page_invariant_run pid inputs _ (page_invariant_init pid))
    as (_ & _ & _ & _ & Hl & _).
  fold s in Hl. split; [exact Hl|]. intros Hp. rewrite Hp in Hl.
  unfold placeholders in Hl. apply Forall_forall. intros e He.
  destruct (is_loading e) eqn:E; [|reflexivity].
  assert (Hin : In e (filter is_loading (chatMessages s)))
    by (apply filter_In; now split).
  apply map_eq_nil in Hl. rewrite Hl in Hin. destruct Hin.
Qed.

(** X18. The widget and the relay together: the request body already ends
    its transcript with the visitor message and the relay appends
    [userMessage] once more, so for every request the widget ever issues
    and a prospect that is found, the text-generation payload ends with the
    visitor message twice. *)
Theorem relay_repeats_visitor_message pid (inputs : list input)
    svc d t brain rest b :
  In b (outbox (run inputs (init pid))) ->
  Server.serving d t ->
  truthy pid = true ->
  Server.where_unique_id pid t = brain :: rest ->
  exists earlier,
    Server.llm_payloads
      (Server.calls_of (Server.run (Server.chat svc b) d))
    = [Wire.mkMessage (js "system") (Server.system_prompt brain)
         :: earlier
         ++ [Wire.mkMessage (js "user") (Wire.userMessage b);
             Wire.mkMessage (js "user") (Wire.userMessage b)]].
Proof.
  intros Hin Hd Hid Hrows.
  destruct (requests_carry_the_transcript pid inputs) as (_ & _ & Hreq & _).
  rewrite Forall_forall in Hreq.
  destruct (Hreq b Hin) as (_ & Hpid & earlier & _ & Hh).
  exists earlier. rewrite <- Hpid in Hid, Hrows.
  pose proof (ServerFacts.chat_found svc d t b brain rest _ Hd Hid Hrows Hh) as H.
  cbv zeta in H. rewrite H. clear H. unfold Server.calls_of.
  rewrite <- app_assoc.
  destruct (Server.openrouter svc _) as [[|reply others]|e]; try reflexivity.
  destruct (Server.elevenlabs svc reply); reflexivity.
Qed.

Lemma relay_repeats_visitor_message_witness :
  exists earlier,
    Server.llm_payloads
      (Server.calls_of
         (Server.run
            (Server.chat Scenario.answering
               (Wire.mkChatBody (js "hi")
                  (Some [Wire.mkMessage (js "user") (js "hi")])
                  (Some (js "p-123"))))
            Scenario.store))
    = [Wire.mkMessage (js "system") (js "You sell widgets.")
         :: earlier
         ++ [Wire.mkMessage (js "user") (js "hi");
             Wire.mkMessage (js "user") (js "hi")]].
Proof.
  apply (relay_repeats_visitor_message (Some (js "p-123"))
           [Typed (js "hi"); Submit] Scenario.answering Scenario.store
           Scenario.widgets_table Scenario.widgets []
           (Wire.mkChatBody (js "hi")
              (Some [Wire.mkMessage (js "user") (js "hi")])
              (Some (js "p-123")))).
  - left. reflexivity.
  - split; reflexivity.
  - reflexivity.
  - reflexivity.
Defined.

(** X19. The play button of a message plays the audio bound to that
    message and nothing else: after the click the only [Audio] playing is a
    new one over that message's [audioData], and it is the current one.  A
    click on a message without a button changes nothing. *)
Theorem play_button_replays_its_audio pid (inputs : list input) (n : nat) :
  let s := run inputs (init pid) in
  (forall audioData,
     button_of n s = Some audioData ->
     filter playing (audios (step (ClickPlay n) s)) = [mkAudio audioData true]
     /\ nth_error (audios (step (ClickPlay n) s)) (List.length (audios s))
        = Some (mkAudio audioData true)
     /\ currentAudio (step (ClickPlay n) s) = Some (List.length (audios s)))
  /\ (button_of n s = None -> step (ClickPlay n) s = s).
Proof.
  intros s. split.
  - intros a Hb. cbn [step]. rewrite Hb.
    assert (H : one_player s)
      by (apply WidgetFacts.one_player_run, WidgetFacts.one_player_init).
    destruct (WidgetFacts.playAudio_spec a s H) as (Ha & Hc & Hs).
    rewrite Ha, Hc, filter_app, (WidgetFacts.filter_playing_none _ Hs).
    repeat split.
    rewrite nth_error_app2; rewrite WidgetFacts.pause_current_length; [|lia].
    now rewrite Nat.sub_diag.
  - intros Hb. cbn [step]. now rewrite Hb.
Qed.

End PageFacts.

(* ===================================================================== *)
(** ** The base64 text of the audio *)
(* ===================================================================== *)

Module Base64Facts.

Import JSFacts TextFacts Sextets.
Local Open Scope N_scope.

Lemma below_forallb (f : N -> bool) (k : nat) :
  forallb f (map N.of_nat (seq 0 k)) = true ->
  forall n, n < N.of_nat k -> f n = true.
Proof.
  intros H n Hn. rewrite forallb_forall in H. apply H.
  apply in_map_iff. exists (N.to_nat n). split; [apply N2Nat.id|].
  apply in_seq. lia.
Qed.

Lemma octet (a : byte) : Byte.to_N a < 256.
Proof. pose proof (Byte.to_N_bounded a). lia. Qed.

Lemma to_N_inj (a b : byte) : Byte.to_N a = Byte.to_N b -> a = b.
Proof.
  intros H. pose proof (Byte.of_to_N a) as Ha. rewrite H, Byte.of_to_N in Ha.
  now injection Ha.
Qed.

(** Checked on the 64 indices: each names a letter, never the padding, and
    no two name the same letter. *)
Lemma alphabet_checked :
  forallb (fun i =>
             is_letter (base64_digit i)
             && negb (base64_digit i =? pad)
             && forallb (fun j => negb (base64_digit i =? base64_digit j)
                                  || (i =? j)) indices)
          indices = true.
Proof. vm_compute. reflexivity. Qed.

(** Checked on every pair of byte values: the four groups are indices, and
    the bytes can be read back off them. *)
Lemma groups_checked :
  forallb (fun x =>
    forallb (fun y =>
               (first x <? 64) && (second x y <? 64)
               && (third x y <? 64) && (fourth x <? 64)
               && (x =? first x * 4 + second x y / 16)
               && (second x y mod 16 =? y / 16)
               && (third x y / 4 =? x mod 16)
               && (third x y mod 4 =? y / 64)
               && (x =? x / 16 * 16 + x mod 16)
               && (x =? x / 64 * 64 + fourth x))
            octets)
    octets = true.
Proof. vm_compute. reflexivity. Qed.

Lemma index_facts (i : N) :
  i < 64 ->
  In (base64_digit i) (js base64_alphabet)
  /\ base64_digit i <> pad
  /\ forall j, j < 64 -> base64_digit i = base64_digit j -> i = j.
Proof.
  intros Hi.
  pose proof (below_forallb _ 64 alphabet_checked i Hi) as H.
  cbv beta in H. apply andb_prop in H as [H Hinj].
  apply andb_prop in H as [Hletter Hpad]. split; [|split].
  - unfold is_letter in Hletter. apply existsb_exists in Hletter as (c & Hc & E).
    apply N.eqb_eq in E. now rewrite E.
  - apply negb_true_iff, N.eqb_neq in Hpad. exact Hpad.
  - intros j Hj E. pose proof (below_forallb _ 64 Hinj j Hj) as H.
    cbv beta in H. rewrite E, N.eqb_refl in H. cbn [negb orb] in H.
    now apply N.eqb_eq.
Qed.

Lemma group_facts (x y : N) :
  x < 256 -> y < 256 ->
  (first x < 64 /\ second x y < 64 /\ third x y < 64 /\ fourth x < 64)
  /\ x = first x * 4 + second x y / 16
  /\ second x y mod 16 = y / 16
  /\ third x y / 4 = x mod 16
  /\ third x y mod 4 = y / 64
  /\ x = x / 16 * 16 + x mod 16
  /\ x = x / 64 * 64 + fourth x.
Proof.
  intros Hx Hy.
  pose proof (below_forallb _ 256 groups_checked x Hx) as H. cbv beta in H.
  pose proof (below_forallb _ 256 H y Hy) as H'. cbv beta in H'. clear H.
  repeat (apply andb_prop in H' as [H' ?]).
  repeat match goal with
         | H : (_ <? _) = true |- _ => apply N.ltb_lt in H
         | H : (_ =? _) = true |- _ => apply N.eqb_eq in H
         end.
  auto 10.
Qed.

(** [base64], group by group. *)
Lemma base64_one (a : byte) :
  base64 [a]
  = [base64_digit (first (Byte.to_N a));
     base64_digit (second (Byte.to_N a) 0); pad; pad].
Proof.
  unfold second. change (N.shiftr 0 4) with 0. rewrite N.lor_0_r. reflexivity.
Qed.

Lemma base64_two (a b : byte) :
  base64 [a; b]
  = [base64_digit (first (Byte.to_N a));
     base64_digit (second (Byte.to_N a) (Byte.to_N b));
     base64_digit (third (Byte.to_N b) 0); pad].
Proof.
  unfold third. change (N.shiftr 0 6) with 0. rewrite N.lor_0_r. reflexivity.
Qed.

Lemma base64_three (a b c : byte) (rest : list byte) :
  base64 (a :: b :: c :: rest)
  = base64_digit (first (Byte.to_N a))
    :: base64_digit (second (Byte.to_N a) (Byte.to_N b))
    :: base64_digit (third (Byte.to_N b) (Byte.to_N c))
    :: base64_digit (fourth (Byte.to_N c))
    :: base64 rest.
Proof. reflexivity. Qed.

Lemma zero_octet : 0 < 256.
Proof. reflexivity. Qed.

(** Every group of a byte string is an index of the alphabet. *)
Lemma group_bounds (a b : byte) :
  first (Byte.to_N a) < 64
  /\ second (Byte.to_N a) (Byte.to_N b) < 64
  /\ second (Byte.to_N a) 0 < 64
  /\ third (Byte.to_N a) (Byte.to_N b) < 64
  /\ third (Byte.to_N a) 0 < 64
  /\ fourth (Byte.to_N a) < 64.
Proof.
  destruct (group_facts _ _ (octet a) (octet b)) as ((H1 & H2 & H3 & H4) & _).
  destruct (group_facts _ _ (octet a) zero_octet) as ((_ & H5 & H6 & _) & _).
  auto 10.
Qed.

(** Reading the bytes back off the groups. *)
Lemma recover_first (x y x' y' : N) :
  x < 256 -> y < 256 -> x' < 256 -> y' < 256 ->
  first x = first x' -> second x y = second x' y' -> x = x'.
Proof.
  intros Hx Hy Hx' Hy' E1 E2.
  destruct (group_facts x y Hx Hy) as (_ & H & _).
  destruct (group_facts x' y' Hx' Hy') as (_ & H' & _).
  rewrite H, H', E1, E2. reflexivity.
Qed.

Lemma recover_middle (x y z x' y' z' : N) :
  x < 256 -> y < 256 -> z < 256 -> x' < 256 -> y' < 256 -> z' < 256 ->
  second x y = second x' y' -> third y z = third y' z' -> y = y'.
Proof.
  intros Hx Hy Hz Hx' Hy' Hz' E2 E3.
  destruct (group_facts x y Hx Hy) as (_ & _ & Hhi & _).
  destruct (group_facts x' y' Hx' Hy') as (_ & _ & Hhi' & _).
  destruct (group_facts y z Hy Hz) as (_ & _ & _ & Hlo & _ & Hy16 & _).
  destruct (group_facts y' z' Hy' Hz') as (_ & _ & _ & Hlo' & _ & Hy16' & _).
  rewrite Hy16, Hy16', <- Hhi, <- Hhi', <- Hlo, <- Hlo', E2, E3. reflexivity.
Qed.

Lemma recover_last (y z y' z' : N) :
  y < 256 -> z < 256 -> y' < 256 -> z' < 256 ->
  third y z = third y' z' -> fourth z = fourth z' -> z = z'.
Proof.
  intros Hy Hz Hy' Hz' E3 E4.
  destruct (group_facts y z Hy Hz) as (_ & _ & _ & _ & Hhi & _).
  destruct (group_facts y' z' Hy' Hz') as (_ & _ & _ & _ & Hhi' & _).
  destruct (group_facts z y Hz Hy) as (_ & _ & _ & _ & _ & _ & H64).
  destruct (group_facts z' y' Hz' Hy') as (_ & _ & _ & _ & _ & _ & H64').
  rewrite H64, H64', <- Hhi, <- Hhi', E3, E4. reflexivity.
Qed.

(** Equal letters, equal groups. *)
Lemma digit_inj (i j : N) :
  i < 64 -> j < 64 -> base64_digit i = base64_digit j -> i = j.
Proof. intros Hi Hj. now apply (index_facts i Hi). Qed.

Lemma digit_not_pad (i : N) : i < 64 -> base64_digit i <> pad.
Proof. intros Hi. now apply (index_facts i Hi). Qed.

(** X20. The base64 text of [n] bytes has [4 * ceil (n / 3)] code units,
    each a letter of the base64 alphabet or the padding sign: the
    [audioData] sent to the browser is always a well-formed data URI. *)
Theorem base64_text_shape (bs : list byte) :
  List.length (base64 bs) = (4 * ((List.length bs + 2) / 3))%nat
  /\ Forall (fun c => In c (js base64_alphabet) \/ c = pad) (base64 bs).
Proof.
  split; [apply base64_length|].
  assert (Hletter : forall i, i < 64 ->
            In (base64_digit i) (js base64_alphabet) \/ base64_digit i = pad).
  { intros i Hi. left. now apply (index_facts i Hi). }
  induction bs as [|a|a b|a b c rest IH] using base64_length_ind.
  - constructor.
  - rewrite base64_one. destruct (group_bounds a a) as (H1 & _ & H2 & _).
    repeat (apply Forall_cons; [first [now apply Hletter | now right]|]).
    apply Forall_nil.
  - rewrite base64_two. destruct (group_bounds a b) as (H1 & H2 & _).
    destruct (group_bounds b b) as (_ & _ & _ & _ & H3 & _).
    repeat (apply Forall_cons; [first [now apply Hletter | now right]|]).
    apply Forall_nil.
  - rewrite base64_three. destruct (group_bounds a b) as (H1 & H2 & _).
    destruct (group_bounds b c) as (_ & _ & _ & H3 & _).
    destruct (group_bounds c c) as (_ & _ & _ & _ & _ & H4).
    do 4 (apply Forall_cons; [now apply Hletter|]). exact IH.
Qed.

(** X21. Distinct audio streams give distinct texts: the bytes can be read
    back off their base64 text, so the data URI loses nothing of what
    ElevenLabs returned. *)
Theorem base64_injective (bs bs' : list byte) :
  base64 bs = base64 bs' -> bs = bs'.
Proof.
  revert bs'.
  induction bs as [|a|a b|a b c rest IH] using base64_length_ind;
    intros [|a' [|b' [|c' rest']]];
    rewrite ?base64_one, ?base64_two, ?base64_three;
    intros H; try reflexivity; try discriminate H;
    pose proof (octet a) as Ha; pose proof (octet a') as Ha';
    pose proof zero_octet as H0;
    destruct (group_bounds a a) as (B1 & _ & B2 & _);
    destruct (group_bounds a' a') as (B1' & _ & B2' & _).
  - (* one byte against one *)
    injection H as E1 E2.
    apply digit_inj in E1, E2; auto.
    f_equal. apply to_N_inj. exact (recover_first _ 0 _ 0 Ha H0 Ha' H0 E1 E2).
  - (* one byte against two: the third sign is padding on one side only *)
    injection H as _ _ E3.
    destruct (group_bounds b' b') as (_ & _ & _ & _ & B3' & _).
    symmetry in E3. now destruct (digit_not_pad _ B3' E3).
  - injection H as _ _ E3 _.
    destruct (group_bounds b' c') as (_ & _ & _ & B3' & _).
    symmetry in E3. now destruct (digit_not_pad _ B3' E3).
  - injection H as _ _ E3.
    destruct (group_bounds b b) as (_ & _ & _ & _ & B3 & _).
    now destruct (digit_not_pad _ B3 E3).
  - (* two bytes against two *)
    injection H as E1 E2 E3.
    pose proof (octet b) as Hb. pose proof (octet b') as Hb'.
    destruct (group_bounds a b) as (_ & B2b & _).
    destruct (group_bounds a' b') as (_ & B2b' & _).
    destruct (group_bounds b b) as (_ & _ & _ & _ & B3 & _).
    destruct (group_bounds b' b') as (_ & _ & _ & _ & B3' & _).
    apply digit_inj in E1, E2, E3; auto.
    f_equal; [|f_equal]; apply to_N_inj.
    + exact (recover_first _ _ _ _ Ha Hb Ha' Hb' E1 E2).
    + exact (recover_middle _ _ 0 _ _ 0 Ha Hb H0 Ha' Hb' H0 E2 E3).
  - injection H as _ _ _ E4 _.
    destruct (group_bounds c' c') as (_ & _ & _ & _ & _ & B4').
    symmetry in E4. now destruct (digit_not_pad _ B4' E4).
  - injection H as _ _ E3 _.
    destruct (group_bounds b c) as (_ & _ & _ & B3 & _).
    now destruct (digit_not_pad _ B3 E3).
  - injection H as _ _ _ E4 _.
    destruct (group_bounds c c) as (_ & _ & _ & _ & _ & B4).
    now destruct (digit_not_pad _ B4 E4).
  - (* three bytes against three, then the rest *)
    injection H as E1 E2 E3 E4 Erest.
    pose proof (octet b) as Hb. pose proof (octet b') as Hb'.
    pose proof (octet c) as Hc. pose proof (octet c') as Hc'.
    destruct (group_bounds a b) as (_ & B2b & _).
    destruct (group_bounds a' b') as (_ & B2b' & _).
    destruct (group_bounds b c) as (_ & _ & _ & B3 & _).
    destruct (group_bounds b' c') as (_ & _ & _ & B3' & _).
    destruct (group_bounds c c) as (_ & _ & _ & _ & _ & B4).
    destruct (group_bounds c' c') as (_ & _ & _ & _ & _ & B4').
    apply digit_inj in E1, E2, E3, E4; auto.
    f_equal; [|f_equal; [|f_equal]]; try apply to_N_inj.
    + exact (recover_first _ _ _ _ Ha Hb Ha' Hb' E1 E2).
    + exact (recover_middle _ _ _ _ _ _ Ha Hb Hc Ha' Hb' Hc' E2 E3).
    + exact (recover_last _ _ _ _ Hb Hc Hb' Hc' E3 E4).
    + exact (IH rest' Erest).
Qed.

Lemma base64_injective_witness : bytes "XY" = [x58; x59]%byte.
Proof.
  apply (base64_injective (bytes "XY") [x58; x59]%byte). reflexivity.
Defined.

End Base64Facts.

(* ===================================================================== *)
(** ** What the store refuses, run on concrete posts *)
(* ===================================================================== *)

Module RefusalRuns.

Import Wire Server Routes.

(** A name holding U+0000: the post is answered 500, nothing is stored and
    the sequence has not moved; the landing route under the identifier of
    that post then answers 404. *)
Example nul_name_then_landing :
  let u := js "0b5c1d0e-0000-4000-8000-000000000002" in
  let r := Server.run
             (serve Scenario.env Scenario.answering
                [PostAdminCreate Scenario.steve (Some [65; 0; 66]%N)
                   (Some (js "You sell bolts.")) u;
                 GetLanding (Some u)])
             Scenario.store in
  fst r = Ok [mkResponse 500 (Send (js "Error creating prospect"));
              mkResponse 404 (Send (js "Prospect not found."))]
  /\ db (snd r) = Scenario.store.
Proof. split; reflexivity. Qed.

(** At the end of the int4 sequence the post is answered 500 and nothing is
    stored, whatever the fields. *)
Example sequence_exhausted :
  let full := mkDatabase true (Some (mkTable [Scenario.widgets] 2147483648)) in
  let r := Server.run
             (admin_create Scenario.env Scenario.steve (Some (js "Bolt"))
                (Some (js "You sell bolts."))
                (js "0b5c1d0e-0000-4000-8000-000000000002")) full in
  fst r = Ok (mkResponse 500 (Send (js "Error creating prospect")))
  /\ db (snd r) = full.
Proof. split; reflexivity. Qed.

(** The last value of the sequence is still handed out. *)
Example sequence_last_value :
  let last := mkDatabase true (Some (mkTable [Scenario.widgets] 2147483647)) in
  let r := Server.run
             (admin_create Scenario.env Scenario.steve (Some (js "Bolt"))
                (Some (js "You sell bolts."))
                (js "0b5c1d0e-0000-4000-8000-000000000002")) last in
  fst r = Ok (mkResponse 302 (Redirect (js "/admin")))
  /\ option_map (fun t => map id (rows t)) (prospects (db (snd r)))
     = Some [1; 2147483647]%N.
Proof. split; reflexivity. Qed.

(** A name with an unpaired surrogate is stored, and listed, with U+FFFD in
    its place; a surrogate pair is kept. *)
Example unpaired_surrogate_name :
  dashboard_names
    (fst (Server.run
            (admin_session Scenario.env Scenario.steve (js "http://localhost:3001")
               [mkCreateForm (Some [65; 0xD800; 66]%N) (Some (js "a"))
                  (js "0b5c1d0e-0000-4000-8000-000000000001");
                mkCreateForm (Some [0xD83D; 0xDE00]%N) (Some (js "b"))
                  (js "0b5c1d0e-0000-4000-8000-000000000002")])
            fresh))
  = Some [[0xD83D; 0xDE00]%N; [65; 0xFFFD; 66]%N].
Proof. reflexivity. Qed.

End RefusalRuns.
